(** * adschat-server: message send route and account security service

    A shallow embedding of [src/routes/channels/channelMessageCreate.ts] and
    [src/services/User/UserManagement.ts].  Asynchronous service code is
    written in a state-and-exception monad over a [World] that holds the
    database tables, the user read cache, the connected sockets, the outgoing
    mail and the clock; collaborators whose code is not part of the sources
    (random generators, bcrypt, JWT, the image CDN) are fields of [Env]. *)

From Stdlib Require Import ZArith Lia Ascii.
From stdpp Require Import base option list strings gmap fin_maps.

Local Open Scope Z_scope.

(** ** JavaScript values

    Strings are sequences of code units below 256, for which the length of a
    string, the length the validator counts and the number of characters
    coincide. *)

Module JS.

(** Code units that [String.prototype.trim] strips (the ones below 256:
    TAB, LF, VT, FF, CR, SPACE and NBSP). *)
Definition isWhiteSpace (c : ascii) : bool :=
  match c with
  | "009" | "010" | "011" | "012" | "013" | " " | "160" => true
  | _ => false
  end%char.

Fixpoint trimStart (s : string) : string :=
  match s with
  | "" => ""
  | String c r => if isWhiteSpace c then trimStart r else s
  end.

Definition trimEnd (s : string) : string :=
  String.rev (trimStart (String.rev s)).

Definition trim (s : string) : string := trimEnd (trimStart s).

(** A string made of white space only (the empty string included). *)
Fixpoint allWhiteSpace (s : string) : bool :=
  match s with
  | "" => true
  | String c r => isWhiteSpace c && allWhiteSpace r
  end.

(** Truthiness of a string: only the empty string is falsy. *)
Definition truthy (s : string) : bool :=
  match s with "" => false | _ => true end.

(** Truthiness of a [string | null | undefined]. *)
Definition truthyOpt (o : option string) : bool :=
  match o with Some s => truthy s | None => false end.

(** Truthiness of a [boolean | undefined]. *)
Definition truthyFlag (o : option bool) : bool :=
  match o with Some b => b | None => false end.

(** A field of a parsed request body. *)
Inductive Field :=
| Undefined
| Null
| Str (s : string)
| Other.

End JS.

(** ** Persistent rows *)

(** [prisma.account]; rows are keyed by the unique [userId]. *)
Record Account := mkAccount {
  email : string;
  password : string;
  passwordVersion : Z;
  emailConfirmed : bool;
  emailConfirmCode : option string;
  resetPasswordCode : option string;
  resetPasswordCodeExpiresAt : option Z;
  applications : list string;
}.

(** [prisma.user]; rows are keyed by [id]. *)
Record User := mkUser {
  username : string;
  avatar : option string;
  banner : option string;
  badges : Z;
  customStatus : option string;
  servers : list string;
}.

Record Follower := mkFollower {
  followedById : string;
  followedToId : string;
}.

(** A row of a table whose only column of interest is its owner. *)
Record Owned := mkOwned {
  rowId : string;
  rowUserId : string;
}.

Record Attachment := mkAttachment {
  attWidth : option Z;
  attHeight : option Z;
  attPath : string;
}.

(** Modelled from the spec: [MessageType] of [types/Message] is not part of
    the sources; section 3 distinguishes CONTENT from the system types. *)
Inductive MessageType := CONTENT | SYSTEM.

Record Message := mkMessage {
  msgChannelId : string;
  msgServerId : option string;
  msgCreatedById : string;
  msgContent : JS.Field;
  msgAttachment : option Attachment;
  msgType : MessageType;
  msgSocketId : JS.Field;
  msgCreatedAt : Z;
}.

Inductive Mail :=
| ConfirmCodeMail (code email : string)
| ResetPasswordMail (url email : string).

Record Socket := mkSocket {
  sid : string;
  rooms : list string;
}.

Inductive Payload :=
| PayloadText (msg : string)
| PayloadMessage (m : Message).

(** Events delivered to sockets: target socket, event name, payload. *)
Record Emitted := mkEmitted {
  emTarget : string;
  emEvent : string;
  emPayload : Payload;
}.

(** The relational store. *)
Record Database := mkDatabase {
  accounts : gmap string Account;
  users : gmap string User;
  followers : list Follower;
  userProfiles : list Owned;
  serverChannelLastSeen : list Owned;
  userDevices : list Owned;
  userConnections : list Owned;
  chatNotices : list Owned;
  userNotices : list Owned;
  messages : list Message;
}.

Record World := mkWorld {
  db : Database;
  userCache : gset string;
  sockets : list Socket;
  emitted : list Emitted;
  mails : list Mail;
  cdnCalls : list (string * string * string);
  clock : Z;
  entropy : nat;
}.

Definition setAccounts (m : gmap string Account) (d : Database) : Database :=
  mkDatabase m (users d) (followers d) (userProfiles d)
    (serverChannelLastSeen d) (userDevices d) (userConnections d)
    (chatNotices d) (userNotices d) (messages d).

Definition setUsers (m : gmap string User) (d : Database) : Database :=
  mkDatabase (accounts d) m (followers d) (userProfiles d)
    (serverChannelLastSeen d) (userDevices d) (userConnections d)
    (chatNotices d) (userNotices d) (messages d).

Definition setFollowers (l : list Follower) (d : Database) : Database :=
  mkDatabase (accounts d) (users d) l (userProfiles d)
    (serverChannelLastSeen d) (userDevices d) (userConnections d)
    (chatNotices d) (userNotices d) (messages d).

Definition setUserProfiles (l : list Owned) (d : Database) : Database :=
  mkDatabase (accounts d) (users d) (followers d) l
    (serverChannelLastSeen d) (userDevices d) (userConnections d)
    (chatNotices d) (userNotices d) (messages d).

Definition setServerChannelLastSeen (l : list Owned) (d : Database) : Database :=
  mkDatabase (accounts d) (users d) (followers d) (userProfiles d)
    l (userDevices d) (userConnections d)
    (chatNotices d) (userNotices d) (messages d).

Definition setUserDevices (l : list Owned) (d : Database) : Database :=
  mkDatabase (accounts d) (users d) (followers d) (userProfiles d)
    (serverChannelLastSeen d) l (userConnections d)
    (chatNotices d) (userNotices d) (messages d).

Definition setUserConnections (l : list Owned) (d : Database) : Database :=
  mkDatabase (accounts d) (users d) (followers d) (userProfiles d)
    (serverChannelLastSeen d) (userDevices d) l
    (chatNotices d) (userNotices d) (messages d).

Definition setChatNotices (l : list Owned) (d : Database) : Database :=
  mkDatabase (accounts d) (users d) (followers d) (userProfiles d)
    (serverChannelLastSeen d) (userDevices d) (userConnections d)
    l (userNotices d) (messages d).

Definition setUserNotices (l : list Owned) (d : Database) : Database :=
  mkDatabase (accounts d) (users d) (followers d) (userProfiles d)
    (serverChannelLastSeen d) (userDevices d) (userConnections d)
    (chatNotices d) l (messages d).

Definition setMessages (l : list Message) (d : Database) : Database :=
  mkDatabase (accounts d) (users d) (followers d) (userProfiles d)
    (serverChannelLastSeen d) (userDevices d) (userConnections d)
    (chatNotices d) (userNotices d) l.

Definition setDb (d : Database) (w : World) : World :=
  mkWorld d (userCache w) (sockets w) (emitted w) (mails w) (cdnCalls w)
    (clock w) (entropy w).

Definition setUserCache (c : gset string) (w : World) : World :=
  mkWorld (db w) c (sockets w) (emitted w) (mails w) (cdnCalls w)
    (clock w) (entropy w).

Definition setSockets (l : list Socket) (e : list Emitted) (w : World) : World :=
  mkWorld (db w) (userCache w) l e (mails w) (cdnCalls w) (clock w) (entropy w).

Definition setMails (l : list Mail) (w : World) : World :=
  mkWorld (db w) (userCache w) (sockets w) (emitted w) l (cdnCalls w)
    (clock w) (entropy w).

Definition setCdnCalls (l : list (string * string * string)) (w : World) : World :=
  mkWorld (db w) (userCache w) (sockets w) (emitted w) (mails w) l
    (clock w) (entropy w).

Definition setEntropy (n : nat) (w : World) : World :=
  mkWorld (db w) (userCache w) (sockets w) (emitted w) (mails w) (cdnCalls w)
    (clock w) n.

Definition setClock (t : Z) (w : World) : World :=
  mkWorld (db w) (userCache w) (sockets w) (emitted w) (mails w) (cdnCalls w)
    t (entropy w).

(** ** Collaborators outside the sources

    What the two source files import and call but do not contain is taken as
    a parameter: the configuration, the generators of [common/random]
    (indexed by the draw), [bcrypt.hash] (with its salt), [generateToken] of
    [common/JWT], the image store behind [uploadImage], the event names and
    the permission bits of [common/Bitwise]. *)

Record UploadedImage := mkUploadedImage {
  imgPath : string;
  imgWidth : Z;
  imgHeight : Z;
}.

Inductive UploadError :=
| ErrString (reason : string)
| ErrTyped (type : string).

Record Env := mkEnv {
  DEV_MODE : bool;
  CLIENT_URL : string;
  randomEmailConfirmCode : nat → string;
  randomSecureCode : nat → string;
  randomTag : nat → string;
  bcryptHash : string → Z → nat → string;
  generateToken : string → Z → option string;
  cdnUpload : string → string → string → option UploadedImage * option UploadError;
  AUTHENTICATE_ERROR : string;
  MESSAGE_CREATED : string;
  CHANNEL_SEND_MESSAGE : Z;
  ROLE_SEND_MESSAGE : Z;
  rolePermissionMessage : string;
}.

(** ** The monad of service code *)

Inductive Outcome (A : Type) :=
| Returned (a : A)
| Thrown (e : string).
Arguments Returned {A} a.
Arguments Thrown {A} e.

Definition IO (A : Type) : Type := World → Outcome A * World.

#[global] Instance IO_ret : MRet IO := λ A a w, (Returned a, w).

#[global] Instance IO_bind : MBind IO := λ A B k m w,
  match m w with
  | (Returned a, w') => k a w'
  | (Thrown e, w') => (Thrown e, w')
  end.

#[global] Instance IO_throw : MThrow string IO := λ A e w, (Thrown e, w).

Definition getWorld : IO World := λ w, (Returned w, w).

Definition modifyWorld (f : World → World) : IO () := λ w, (Returned (), f w).

(** The error payload of a [[result, error]] pair and of an error response. *)
Record ApiError := mkApiError {
  message : string;
}.

(** The success payload [{ message }] of the mail-sending services. *)
Record Info := mkInfo {
  infoMessage : string;
}.

(** Modelled from the spec: [generateError] of [common/errorHandler] is not
    part of the sources; section 6 describes the payload as a structure that
    carries the message. *)
Definition generateError (msg : string) : ApiError := mkApiError msg.

(** ** The persistence layer, as the services use it *)

Module Prisma.

(** [prisma.account.findFirst({ where })]. *)
Definition accountFindFirst (P : string → Account → bool)
  : IO (option (string * Account)) :=
  w ← getWorld;
  mret (head (filter (λ kv, P kv.1 kv.2 = true)
                (map_to_list (accounts (db w))))).

(** [prisma.account.update({ where: { userId }, data })]; rejects when
    no row has that [userId]. *)
Definition accountUpdate (userId : string) (data : Account → Account)
  : IO Account :=
  w ← getWorld;
  match accounts (db w) !! userId with
  | None => mthrow "RecordNotFound"
  | Some a =>
      modifyWorld (setDb (setAccounts (<[userId := data a]> (accounts (db w)))
                            (db w)));;
      mret (data a)
  end.

(** One statement of a [$transaction] batch. *)
Definition Statement : Type := Database → option Database.

(** [deleteMany({ where: { userId } })] on a table of owned rows. *)
Definition deleteManyOwned (userId : string) (l : list Owned) : list Owned :=
  filter (λ r, rowUserId r ≠ userId) l.

(** [prisma.follower.deleteMany({ where })]. *)
Definition followerDeleteMany (P : Follower → bool) : Statement :=
  λ d, Some (setFollowers (filter (λ f, P f = false) (followers d)) d).

Definition userProfileDeleteMany (userId : string) : Statement :=
  λ d, Some (setUserProfiles (deleteManyOwned userId (userProfiles d)) d).

Definition serverChannelLastSeenDeleteMany (userId : string) : Statement :=
  λ d, Some (setServerChannelLastSeen
               (deleteManyOwned userId (serverChannelLastSeen d)) d).

Definition userDeviceDeleteMany (userId : string) : Statement :=
  λ d, Some (setUserDevices (deleteManyOwned userId (userDevices d)) d).

Definition userConnectionDeleteMany (userId : string) : Statement :=
  λ d, Some (setUserConnections (deleteManyOwned userId (userConnections d)) d).

Definition chatNoticeDeleteMany (userId : string) : Statement :=
  λ d, Some (setChatNotices (deleteManyOwned userId (chatNotices d)) d).

Definition userNoticeDeleteMany (userId : string) : Statement :=
  λ d, Some (setUserNotices (deleteManyOwned userId (userNotices d)) d).

(** [prisma.account.deleteMany({ where: { userId } })]. *)
Definition accountDeleteMany (userId : string) : Statement :=
  λ d, Some (setAccounts (delete userId (accounts d)) d).

(** [prisma.user.update({ where: { id }, data })]; fails the batch when no
    row has that [id]. *)
Definition userUpdate (id : string) (data : User → User) : Statement :=
  λ d, match users d !! id with
       | None => None
       | Some u => Some (setUsers (<[id := data u]> (users d)) d)
       end.

Fixpoint runStatements (l : list Statement) (d : Database) : option Database :=
  match l with
  | [] => Some d
  | s :: r => match s d with
              | None => None
              | Some d' => runStatements r d'
              end
  end.

(** [prisma.$transaction([...])]: all statements or none. *)
Definition transaction (l : list Statement) : IO () :=
  w ← getWorld;
  match runStatements l (db w) with
  | None => mthrow "RecordNotFound"
  | Some d => modifyWorld (setDb d)
  end.

End Prisma.

(** ** Collaborators of the account service *)

(** Modelled from the spec: [removeUserCacheByUserIds] of [cache/UserCache] is
    not part of the sources; by sections 3 and 6 it invalidates the read-cache
    entries of the given users. *)
Definition removeUserCacheByUserIds (ids : list string) : IO () :=
  w ← getWorld;
  modifyWorld (setUserCache (userCache w ∖ list_to_set ids)).

(** Modelled from the spec: [sendConfirmCodeMail] and [sendResetPasswordMail]
    of [common/mailer] are not part of the sources; by section 6 they dispatch
    one mail and are not waited for. *)
Definition sendMail (m : Mail) : IO () :=
  w ← getWorld;
  modifyWorld (setMails (mails w ++ [m])).

(** A call of one of the generators of [common/random]. *)
Definition draw (gen : nat → string) : IO string :=
  w ← getWorld;
  modifyWorld (setEntropy (S (entropy w)));;
  mret (gen (entropy w)).

(** [Date.now()] and [new Date()]. *)
Definition now : IO Z :=
  w ← getWorld;
  mret (clock w).

(** ** services/User/UserManagement.ts *)

Module UserManagement.
Section WithEnv.

Variable env : Env.

Definition getAccountByUserId (userId : string) : IO (option Account) :=
  r ← Prisma.accountFindFirst (λ k _, bool_decide (k = userId));
  mret (snd <$> r).

(** [data: { emailConfirmCode: code }]. *)
Definition confirmCodeData (code : string) (a : Account) : Account :=
  mkAccount (email a) (password a) (passwordVersion a) (emailConfirmed a)
    (Some code) (resetPasswordCode a) (resetPasswordCodeExpiresAt a)
    (applications a).

Definition updateAccountConfirmCode (userId : string) : IO string :=
  code ← draw (randomEmailConfirmCode env);
  Prisma.accountUpdate userId (confirmCodeData code);;
  mret code.

Definition sendEmailConfirmCode (userId : string)
  : IO (option Info * option ApiError) :=
  account ← getAccountByUserId userId;
  match account with
  | None => mret (None, Some (generateError "Invalid userId."))
  | Some account =>
      if emailConfirmed account then
        mret (None, Some (generateError "Email already verified."))
      else
        code ← updateAccountConfirmCode userId;
        if DEV_MODE env then
          mret (Some (mkInfo ("DEV MODE: Email verify code: " +:+ code)),
                None)
        else
          sendMail (ConfirmCodeMail code (email account));;
          mret (Some (mkInfo "Email confirmation code sent."), None)
  end.

(** [data: { resetPasswordCode, resetPasswordCodeExpiresAt }]. *)
Definition forgotPasswordData (code : string) (expiresAt : Z) (a : Account)
  : Account :=
  mkAccount (email a) (password a) (passwordVersion a) (emailConfirmed a)
    (emailConfirmCode a) (Some code) (Some expiresAt) (applications a).

Definition updateForgotPasswordCode (userId : string) : IO string :=
  code ← draw (randomSecureCode env);
  t ← now;
  Prisma.accountUpdate userId (forgotPasswordData code (t + 60 * 60 * 1000));;
  mret code.

Definition sendResetPasswordCode (mail : string)
  : IO (option Info * option ApiError) :=
  account ← Prisma.accountFindFirst (λ _ a, bool_decide (email a = mail));
  match account with
  | None => mret (None, Some (generateError "Invalid email."))
  | Some (accountUserId, account) =>
      code ← updateForgotPasswordCode accountUserId;
      let url := CLIENT_URL env +:+ "/reset-password?code=" +:+ code
                   +:+ "&userId=" +:+ accountUserId in
      if DEV_MODE env then
        mret (Some (mkInfo ("DEV MODE: Password reset link: " +:+ url)),
              None)
      else
        sendMail (ResetPasswordMail url (email account));;
        mret (Some (mkInfo "Password reset link sent to your email."),
              None)
  end.

(** [data: { emailConfirmed: true, emailConfirmCode: null }]. *)
Definition emailConfirmedData (a : Account) : Account :=
  mkAccount (email a) (password a) (passwordVersion a) true
    None (resetPasswordCode a) (resetPasswordCodeExpiresAt a)
    (applications a).

Definition updateAccountEmailConfirmed (userId : string) : IO string :=
  code ← draw (randomEmailConfirmCode env);
  Prisma.accountUpdate userId emailConfirmedData;;
  mret code.

Definition verifyEmailConfirmCode (userId code : string)
  : IO (option bool * option ApiError) :=
  account ← getAccountByUserId userId;
  match account with
  | None => mret (None, Some (generateError "Invalid userId."))
  | Some account =>
      if emailConfirmed account then
        mret (None, Some (generateError "Email already verified."))
      else if negb (JS.truthyOpt (emailConfirmCode account)) then
        mret (None,
              Some (generateError "You must request email verification first."))
      else if bool_decide (emailConfirmCode account ≠ Some code) then
        mret (None, Some (generateError "Invalid code."))
      else
        updateAccountEmailConfirmed userId;;
        removeUserCacheByUserIds [userId];;
        mret (Some true, None)
  end.

Definition inRoom (room : string) (s : Socket) : bool :=
  bool_decide (room = sid s) || bool_decide (room ∈ rooms s).

(** The sockets that [getIO().in(userId)], narrowed by [except] when an
    [excludeSocketId] is given, addresses. *)
Definition broadcaster (userId : string) (excludeSocketId : option string)
    (s : Socket) : bool :=
  inRoom userId s &&
  match excludeSocketId with
  | Some x => if JS.truthy x then negb (inRoom x s) else true
  | None => true
  end.

Definition disconnectSockets (userId : string)
    (excludeSocketId : option string) : IO () :=
  w ← getWorld;
  let target := broadcaster userId excludeSocketId in
  modifyWorld (setSockets
    (filter (λ s, target s = false) (sockets w))
    (emitted w ++
       ((λ s, mkEmitted (sid s) (AUTHENTICATE_ERROR env)
               (PayloadText "Invalid Token"))
          <$> filter (λ s, target s = true) (sockets w)))).

Definition deletedUsername (bot : option bool) (tag : string) : string :=
  "Deleted " +:+ (if JS.truthyFlag bot then "Bot" else "User") +:+ " " +:+ tag.

(** The [data] of the update that anonymizes the user row. *)
Definition deletedUserData (bot : option bool) (tag : string) (u : User)
  : User :=
  mkUser (deletedUsername bot tag) None None 0 None (servers u).

Definition deleteAccountFromDatabase (userId : string) (bot : option bool)
  : IO () :=
  tag ← draw (randomTag env);
  Prisma.transaction [
    Prisma.followerDeleteMany (λ f,
      bool_decide (followedById f = userId)
      || bool_decide (followedToId f = userId));
    Prisma.userProfileDeleteMany userId;
    Prisma.serverChannelLastSeenDeleteMany userId;
    Prisma.userUpdate userId (deletedUserData bot tag);
    Prisma.accountDeleteMany userId;
    Prisma.userDeviceDeleteMany userId;
    Prisma.userConnectionDeleteMany userId;
    Prisma.chatNoticeDeleteMany userId;
    Prisma.userNoticeDeleteMany userId
  ].

Definition deleteAccount (userId : string) (bot : option bool)
  : IO (option bool * option ApiError) :=
  w ← getWorld;
  match users (db w) !! userId with
  | None => mret (None, Some (generateError "Invalid userId."))
  | Some user =>
      let account := accounts (db w) !! userId in
      let proceed : IO (option bool * option ApiError) :=
        deleteAccountFromDatabase userId bot;;
        removeUserCacheByUserIds [userId];;
        disconnectSockets userId None;;
        mret (Some true, None) in
      if negb (JS.truthyFlag bot) then
        if negb (length (servers user) =? 0)%nat then
          mret (None, Some (generateError
            "You must leave all servers before deleting your account."))
        else if match account with
                | Some a => negb (length (applications a) =? 0)%nat
                | None => false
                end then
          mret (None, Some (generateError
            "You must delete all applications before deleting your account."))
        else proceed
      else proceed
  end.

Record ResetPasswordOpts := mkResetPasswordOpts {
  userId : string;
  code : string;
  newPassword : string;
}.

(** The [where] clause of the lookup in [resetPassword], at time [t]. *)
Definition resetCodeMatches (opts : ResetPasswordOpts) (t : Z)
    (k : string) (a : Account) : bool :=
  bool_decide (k = userId opts) &&
  bool_decide (resetPasswordCode a = Some (code opts)) &&
  match resetPasswordCodeExpiresAt a with
  | Some expiresAt => t <=? expiresAt
  | None => false
  end.

(** The [data] of the update in [resetPassword]. *)
Definition resetPasswordData (hash : string) (a : Account) : Account :=
  mkAccount (email a) hash (passwordVersion a + 1) (emailConfirmed a)
    (emailConfirmCode a) None None (applications a).

Definition resetPassword (opts : ResetPasswordOpts)
  : IO (option string * option ApiError) :=
  if negb (JS.truthy (code opts)) then
    mret (None, Some (generateError "Invalid code."))
  else if negb (JS.truthy (newPassword opts)) then
    mret (None, Some (generateError "Invalid password."))
  else if negb (JS.truthy (userId opts)) then
    mret (None, Some (generateError "Invalid userId."))
  else
    t ← now;
    account ← Prisma.accountFindFirst (resetCodeMatches opts t);
    match account with
    | None => mret (None, Some (generateError "Invalid or expired code."))
    | Some (accountUserId, _) =>
        w ← getWorld;
        modifyWorld (setEntropy (S (entropy w)));;
        let hash := bcryptHash env (JS.trim (newPassword opts)) 10 (entropy w) in
        updateResult ←
          Prisma.accountUpdate (userId opts) (resetPasswordData hash);
        removeUserCacheByUserIds [userId opts];;
        let newToken :=
          generateToken env accountUserId (passwordVersion updateResult) in
        (if JS.truthyOpt newToken then disconnectSockets (userId opts) None
         else mret ());;
        mret (newToken, None)
    end.

End WithEnv.
End UserManagement.

(** ** services/Message *)

Module MessageService.

Record CreateMessageOpts := mkCreateMessageOpts {
  channelId : string;
  content : JS.Field;
  userId : string;
  serverId : option string;
  socketId : JS.Field;
  type : MessageType;
  attachment : option Attachment;
}.

Section WithEnv.

Variable env : Env.

(** Modelled from the spec: [createMessage] of [services/Message] is not
    part of the sources; by section 4.3 it persists the message row,
    publishes a message-created event that carries the full message to the
    subscribers of the channel, and returns the persisted message. *)
Definition createMessage (opts : CreateMessageOpts) : IO Message :=
  t ← now;
  let m := mkMessage (channelId opts) (serverId opts) (userId opts)
             (content opts) (attachment opts) (type opts) (socketId opts) t in
  w ← getWorld;
  modifyWorld (setDb (setMessages (messages (db w) ++ [m]) (db w)));;
  modifyWorld (setSockets (sockets w)
    (emitted w ++
       ((λ s, mkEmitted (sid s) (MESSAGE_CREATED env) (PayloadMessage m))
          <$> filter (λ s, msgChannelId m ∈ rooms s) (sockets w))));;
  mret m.

End WithEnv.
End MessageService.

(** ** routes/channels/channelMessageCreate.ts *)

Module ChannelMessageCreate.

(** Modelled from the spec: [ChannelType] and [TextChannelTypes] of
    [types/Channel] are not part of the sources; section 3 gives the type as
    a fixed enumeration with a direct-message variant and text variants. *)
Inductive ChannelType := DM_TEXT | SERVER_TEXT | CATEGORY.

#[global] Instance ChannelType_eq_dec : EqDecision ChannelType.
Proof. solve_decision. Defined.

Definition TextChannelTypes : list ChannelType := [DM_TEXT; SERVER_TEXT].

Record Inbox := mkInbox {
  canMessage : bool;
}.

Record ChannelCache := mkChannelCache {
  id : string;
  type : ChannelType;
  inbox : option Inbox;
  server : option string;
  permissions : Z;
}.

Record FileInfo := mkFileInfo {
  file : string;
  filename : string;
}.

Record Request := mkRequest {
  content : JS.Field;
  socketId : JS.Field;
  channelCache : ChannelCache;
  accountUserId : string;
  fileInfo : option FileInfo;
  memberRolePermissions : list Z;
  isServerOwner : bool;
}.

Inductive Json :=
| JsonError (e : ApiError)
| JsonMessage (m : Message).

Record Response := mkResponse {
  status : Z;
  json : Json;
}.

(** A chain [body(f).optional(true).isString().withMessage(notString)
    .isLength({ min, max }).withMessage(badLength)]: the message of its
    first failing validator. *)
Definition validateChain (min max : nat) (notString badLength : string)
    (f : JS.Field) : option string :=
  match f with
  | JS.Undefined => None
  | JS.Str s =>
      if (min <=? String.length s)%nat && (String.length s <=? max)%nat
      then None else Some badLength
  | JS.Null | JS.Other => Some notString
  end.

Definition validateContent : JS.Field → option string :=
  validateChain 1 2000 "Content must be a string!"
    "Content length must be between 1 and 2000 characters.".

Definition validateSocketId : JS.Field → option string :=
  validateChain 1 255 "SocketId must be a string!"
    "SocketId length must be between 1 and 255 characters.".

(** Modelled from the spec: [customExpressValidatorResult] of
    [common/errorHandler] is not part of the sources; it reports the first
    error of the validation chains, in the order the route registers them,
    as an error payload (section 4.3: a 400 with a field-specific reason). *)
Definition customExpressValidatorResult (req : Request) : option ApiError :=
  match validateContent (content req) with
  | Some msg => Some (generateError msg)
  | None => generateError <$> validateSocketId (socketId req)
  end.

Definition errorResponse (code : Z) (msg : string) : Response :=
  mkResponse code (JsonError (generateError msg)).

(** The same request, sent by a member with other permission data. *)
Definition withPermissions (channelBits : Z) (roles : list Z) (owner : bool)
    (req : Request) : Request :=
  mkRequest (content req) (socketId req)
    (mkChannelCache (id (channelCache req)) (type (channelCache req))
       (inbox (channelCache req)) (server (channelCache req)) channelBits)
    (accountUserId req) (fileInfo req) roles owner.

(** The content is absent or trims to the empty string. *)
Definition blankContent (f : JS.Field) : Prop :=
  f = JS.Undefined ∨ ∃ s, f = JS.Str s ∧ JS.trim s = "".

Section WithEnv.

Variable env : Env.

(** Modelled from the spec: [uploadImage] of [common/nerimityCDN] is not part
    of the sources; by sections 4.2 and 6 it hands the file to the image store
    and returns the store's [[result, error]] pair. *)
Definition uploadImage (f name channelId : string)
  : IO (option UploadedImage * option UploadError) :=
  w ← getWorld;
  modifyWorld (setCdnCalls (cdnCalls w ++ [(f, name, channelId)]));;
  mret (cdnUpload env f name channelId).

(** Truthiness of the error side of the upload result, the test [if (err)]
    of the route: an object is truthy, a string unless it is empty. *)
Definition errTruthy (err : option UploadError) : bool :=
  match err with
  | Some (ErrString s) => JS.truthy s
  | Some (ErrTyped _) => true
  | None => false
  end.

(** [body.content?.trim()]: [None] stands for [undefined]. *)
Definition trimmedContent (f : JS.Field) : IO (option string) :=
  match f with
  | JS.Undefined | JS.Null => mret None
  | JS.Str s => mret (Some (JS.trim s))
  | JS.Other => mthrow "TypeError"
  end.

(** The tail of the route: [createMessage] with the attachment, if any,
    and the reply with the created message. *)
Definition send (req : Request) (attachment : option Attachment)
  : IO Response :=
  m ← MessageService.createMessage env
         (MessageService.mkCreateMessageOpts
            (id (channelCache req)) (content req) (accountUserId req)
            (server (channelCache req)) (socketId req) CONTENT attachment);
  mret (mkResponse 200 (JsonMessage m)).

(** The block [if (req.fileInfo?.file)] of the route and what follows it. *)
Definition ingest (req : Request) (fi : FileInfo) : IO Response :=
  '(uploadedImage, err) ←
    uploadImage (file fi) (filename fi) (id (channelCache req));
  let attach : IO Response :=
    match uploadedImage with
    | None => mthrow "TypeError"
    | Some img =>
        send req (Some (mkAttachment (Some (imgWidth img))
                          (Some (imgHeight img)) (imgPath img)))
    end in
  match err with
  | Some (ErrString reason) =>
      if JS.truthy reason then mret (errorResponse 403 reason)
      else attach
  | Some (ErrTyped ty) =>
      if bool_decide (ty = "INVALID_IMAGE") then
        mret (errorResponse 403 "You can only upload images for now.")
      else
        mret (errorResponse 403
                ("An unknown error has occurred (" +:+ ty +:+ ")"))
  | None => attach
  end.

Definition route (req : Request) : IO Response :=
  match customExpressValidatorResult req with
  | Some validateError => mret (mkResponse 400 (JsonError validateError))
  | None =>
  if match inbox (channelCache req) with
     | Some i => negb (canMessage i)
     | None => false
     end
  then mret (errorResponse 400 "You cannot message this user.")
  else if negb (bool_decide (type (channelCache req) ∈ TextChannelTypes))
  then mret (errorResponse 400 "You cannot send messages in this channel.")
  else
  trimmed ← trimmedContent (content req);
  if negb (JS.truthyOpt trimmed) && negb (bool_decide (is_Some (fileInfo req)))
  then mret (errorResponse 400 "content or attachment is required.")
  else
  match fileInfo req with
  | None => send req None
  | Some fi => ingest req fi
  end
  end.

(** Modelled from the spec: the middleware [channelPermissions] is not part
    of the sources; by section 4.1 it grants when the channel's permission
    bits contain the required bit, and direct-message channels bypass it. *)
Definition channelPermissions (bit : Z) (msg : string) (req : Request)
  : option Response :=
  match inbox (channelCache req) with
  | Some _ => None
  | None =>
      if negb (Z.land (permissions (channelCache req)) bit =? 0) then None
      else Some (errorResponse 400 msg)
  end.

(** Modelled from the spec: the middleware [memberHasRolePermission] is not
    part of the sources; by section 4.1 it grants when the bitwise OR of the
    member's role permissions contains the required bit or the member owns
    the server, and direct-message channels bypass it. *)
Definition memberHasRolePermission (bit : Z) (req : Request)
  : option Response :=
  match inbox (channelCache req) with
  | Some _ => None
  | None =>
      if isServerOwner req
         || negb (Z.land (foldr Z.lor 0 (memberRolePermissions req)) bit =? 0)
      then None
      else Some (errorResponse 400 (rolePermissionMessage env))
  end.

(** The handlers that [Router.post] registers, from the permission checks
    on; a request that the earlier middleware let through runs them in
    order until one responds. *)
Definition channelMessageCreate (req : Request) : IO Response :=
  match channelPermissions (CHANNEL_SEND_MESSAGE env)
          "You are not allowed to send messages in this channel." req with
  | Some denied => mret denied
  | None =>
      match memberHasRolePermission (ROLE_SEND_MESSAGE env) req with
      | Some denied => mret denied
      | None => route req
      end
  end.

End WithEnv.
End ChannelMessageCreate.

(** ** Sample data *)

Module Sample.

Definition codeOf (prefix : string) (n : nat) : string :=
  prefix +:+ String (ascii_of_nat (65 + n mod 26)) "".

Definition env (dev : bool) : Env :=
  mkEnv dev "https://chat.example" (codeOf "4711") (codeOf "secure-")
    (codeOf "tag") (λ pw rounds salt, "bcrypt:" +:+ pw)
    (λ u v, Some ("token." +:+ u))
    (λ f name channelId,
       if bool_decide (name = "cat.png")
       then (Some (mkUploadedImage ("/" +:+ channelId +:+ "/cat.png") 640 480), None)
       else if bool_decide (name = "notes.txt")
       then (None, Some (ErrTyped "INVALID_IMAGE"))
       else (None, Some (ErrString "Could not connect to the CDN.")))
    "auth:error" "message:created" 1 2 "Missing SEND_MESSAGE permission.".

Definition alice : Account :=
  mkAccount "alice@example.org" "bcrypt:old" 3 false None None None [].

Definition aliceUser : User :=
  mkUser "alice" (Some "a.png") (Some "b.png") 5 (Some "hi") [].

Definition database : Database :=
  mkDatabase {[ "u1" := alice ]} {[ "u1" := aliceUser ]}
    [mkFollower "u1" "u2"; mkFollower "u2" "u1"; mkFollower "u2" "u3"]
    [mkOwned "p1" "u1"; mkOwned "p2" "u2"] [mkOwned "l1" "u1"]
    [mkOwned "d1" "u1"] [mkOwned "c1" "u1"] [mkOwned "n1" "u1"]
    [mkOwned "n2" "u1"; mkOwned "n3" "u2"] [].

Definition world : World :=
  mkWorld database {[ "u1"; "u2" ]}
    [mkSocket "s1" ["u1"]; mkSocket "s2" ["u2"]; mkSocket "s3" ["u1"; "c1"]]
    [] [] [] 1000 0.

(** The world one hour and one second after a reset link was requested
    for alice, and the world one hour after. *)
Definition resetRequested : World :=
  (UserManagement.sendResetPasswordCode (env true) "alice@example.org" world).2.

Definition resetExpired : World := setClock (1000 + 3600001) resetRequested.

Definition resetPending : World := setClock (1000 + 3600000) resetRequested.

Definition aliceResetting : Account :=
  UserManagement.forgotPasswordData "secure-A" 3601000 alice.

Fixpoint chars (n : nat) : string :=
  match n with
  | O => ""
  | S k => String "a" (chars k)
  end.

Import ChannelMessageCreate.

Definition textChannel : ChannelCache :=
  mkChannelCache "c1" SERVER_TEXT None (Some "srv1") 1.

Definition blockedInbox : ChannelCache :=
  mkChannelCache "dm1" DM_TEXT (Some (mkInbox false)) None 0.

Definition request (f : JS.Field) (cc : ChannelCache)
    (attached : option FileInfo) : Request :=
  mkRequest f JS.Undefined cc "u1" attached [2] false.

End Sample.


(** ** routes/moderation/getTickets.ts *)

Module GetTickets.

(** The result of [parseInt]: [Num z] stands for the number nearest to the
    integer [z], which compares with 0 and with 30 as [z] does. *)
Inductive JsNumber :=
| NaN
| Num (z : Z).

(** The value of a character as a digit of the given radix. *)
Definition digitValue (radix : Z) (c : ascii) : option Z :=
  let n := Z.of_nat (nat_of_ascii c) in
  let v := if (48 <=? n) && (n <=? 57) then Some (n - 48)
           else if (97 <=? n) && (n <=? 122) then Some (n - 87)
           else if (65 <=? n) && (n <=? 90) then Some (n - 55)
           else None in
  match v with
  | Some d => if d <? radix then Some d else None
  | None => None
  end.

(** The value of the longest prefix of digits, [None] when it is empty. *)
Fixpoint digits (radix : Z) (s : string) (acc : option Z) : option Z :=
  match s with
  | "" => acc
  | String c r =>
      match digitValue radix c with
      | Some d => digits radix r (Some (radix * default 0 acc + d))
      | None => acc
      end
  end.

(** [parseInt(s)] without a radix: leading white space, a sign, an optional
    [0x] or [0X], then the digits; anything after them is ignored. *)
Definition parseInt (s : string) : JsNumber :=
  let s1 := JS.trimStart s in
  let '(sign, s2) :=
    match s1 with
    | String "-" r => (-1, r)
    | String "+" r => (1, r)
    | _ => (1, s1)
    end in
  let '(radix, s3) :=
    match s2 with
    | String "0" (String "x" r) => (16, r)
    | String "0" (String "X" r) => (16, r)
    | _ => (10, s2)
    end in
  match digits radix s3 None with
  | Some n => Num (sign * n)
  | None => NaN
  end.

(** Truthiness of [number | undefined]: [NaN] and zero are falsy. *)
Definition numTruthy (n : option JsNumber) : bool :=
  match n with
  | Some (Num z) => negb (z =? 0)
  | Some NaN | None => false
  end.

(** [req.query]. *)
Record Query := mkQuery {
  after : option string;
  limit : option string;
}.

Inductive SortOrder := asc | desc.

(** The argument of [prisma.ticket.findMany]; the fixed [select] is left
    out. *)
Record FindManyArgs := mkFindManyArgs {
  orderByLastUpdatedAt : SortOrder;
  skip : option Z;
  take : JsNumber;
  cursor : option JsNumber;
}.

Definition findManyArgs (q : Query) : FindManyArgs :=
  let after :=
    match after q with
    | Some s => if JS.truthy s then Some (parseInt s) else None
    | None => None
    end in
  let limit :=
    parseInt (match limit q with
              | Some s => if JS.truthy s then s else "30"
              | None => "30"
              end) in
  let limit :=
    match limit with
    | Num z => if 30 <? z then Num 30 else limit
    | NaN => limit
    end in
  mkFindManyArgs desc
    (if numTruthy after then Some 1 else None)
    limit
    (if numTruthy after then after else None).

Section WithStore.

Variable Ticket : Type.

(** [prisma.ticket.findMany]. *)
Variable findMany : FindManyArgs → IO (list Ticket).

Definition route (q : Query) : IO (list Ticket) :=
  tickets ← findMany (findManyArgs q);
  mret tickets.

End WithStore.
End GetTickets.

(** ** Sequences of calls of the account service

    The functions that [UserManagement.ts] exports, as the calls a client of
    the service can make, and the passing of time between them. *)

Module Api.

Inductive Call :=
| SendEmailConfirmCode (userId : string)
| SendResetPasswordCode (mail : string)
| VerifyEmailConfirmCode (userId code : string)
| DeleteAccount (userId : string) (bot : option bool)
| DisconnectSockets (userId : string) (excludeSocketId : option string)
| ResetPassword (opts : UserManagement.ResetPasswordOpts)
| Wait (ms : N).

(** The state a call leaves behind. *)
Definition exec (env : Env) (c : Call) (w : World) : World :=
  match c with
  | SendEmailConfirmCode u => (UserManagement.sendEmailConfirmCode env u w).2
  | SendResetPasswordCode mail =>
      (UserManagement.sendResetPasswordCode env mail w).2
  | VerifyEmailConfirmCode u c =>
      (UserManagement.verifyEmailConfirmCode env u c w).2
  | DeleteAccount u bot => (UserManagement.deleteAccount env u bot w).2
  | DisconnectSockets u x => (UserManagement.disconnectSockets env u x w).2
  | ResetPassword opts => (UserManagement.resetPassword env opts w).2
  | Wait ms => setClock (clock w + Z.of_N ms) w
  end.

Definition run (env : Env) (calls : list Call) (w : World) : World :=
  foldl (λ w c, exec env c w) w calls.

(** How an account row can differ between an earlier and a later state:
    address and applications are the same, the password version has not gone
    down, the password is the same unless the version went up, and a
    confirmed address is still confirmed. *)
Definition accountEvolves (a a' : Account) : Prop :=
  email a' = email a ∧
  applications a' = applications a ∧
  passwordVersion a ≤ passwordVersion a' ∧
  (passwordVersion a' = passwordVersion a → password a' = password a) ∧
  (emailConfirmed a = true → emailConfirmed a' = true).

(** A user row in the state account deletion leaves it in. *)
Definition anonymized (usr : User) : Prop :=
  avatar usr = None ∧ banner usr = None ∧ badges usr = 0 ∧
  customStatus usr = None ∧
  ∃ bot tag, username usr = UserManagement.deletedUsername bot tag.

(** Exactly one side of a [[result, error]] pair is populated. *)
Definition oneSided {A : Type} (r : option A * option ApiError) : Prop :=
  (is_Some r.1 ∧ r.2 = None) ∨ (r.1 = None ∧ is_Some r.2).

(** What the account service can do to the rest of the state: it keeps the
    messages and the set of user rows, only removes follow, profile,
    read-state, device, connection and notice rows, cache entries and
    sockets, only appends emitted events and mails, makes no call to the
    image store, and clock and draw counter do not go back. *)
Definition onlyRetires (w w' : World) : Prop :=
  messages (db w') = messages (db w) ∧
  (∀ u, is_Some (users (db w') !! u) ↔ is_Some (users (db w) !! u)) ∧
  (∀ f, f ∈ followers (db w') → f ∈ followers (db w)) ∧
  (∀ r, r ∈ userProfiles (db w') → r ∈ userProfiles (db w)) ∧
  (∀ r, r ∈ serverChannelLastSeen (db w') → r ∈ serverChannelLastSeen (db w)) ∧
  (∀ r, r ∈ userDevices (db w') → r ∈ userDevices (db w)) ∧
  (∀ r, r ∈ userConnections (db w') → r ∈ userConnections (db w)) ∧
  (∀ r, r ∈ chatNotices (db w') → r ∈ chatNotices (db w)) ∧
  (∀ r, r ∈ userNotices (db w') → r ∈ userNotices (db w)) ∧
  (∀ u, u ∈ userCache w' → u ∈ userCache w) ∧
  (∀ s, s ∈ sockets w' → s ∈ sockets w) ∧
  (∃ e, emitted w' = emitted w ++ e) ∧
  (∃ m, mails w' = mails w ++ m) ∧
  cdnCalls w' = cdnCalls w ∧
  clock w ≤ clock w' ∧
  (entropy w ≤ entropy w')%nat.

End Api.

(** * Properties *)

(** ** The persistence layer *)

Ltac io_unfold :=
  unfold mbind, IO_bind, mret, IO_ret, mthrow, IO_throw, getWorld,
    modifyWorld, now, draw, sendMail, removeUserCacheByUserIds.

Lemma head_filter_key (m : gmap string Account) (u : string)
    (P : string → Account → bool) :
  (∀ k a, P k a = true → k = u) →
  head (filter (λ kv, P kv.1 kv.2 = true) (map_to_list m)) =
  match m !! u with
  | Some a => if P u a then Some (u, a) else None
  | None => None
  end.
Proof.
  intros Hkey.
  assert (Hin : ∀ x, x ∈ filter (λ kv, P kv.1 kv.2 = true) (map_to_list m) ↔
                     x.1 = u ∧ m !! u = Some x.2 ∧ P u x.2 = true).
  { intros [k a]. rewrite list_elem_of_filter, elem_of_map_to_list. simpl.
    split.
    - intros [HP Hm]. pose proof (Hkey _ _ HP). subst k. done.
    - intros (-> & Hm & HP). done. }
  destruct (filter _ (map_to_list m)) as [|x l] eqn:Hl; simpl.
  - destruct (m !! u) as [a|] eqn:Hm; [|done].
    destruct (P u a) eqn:HP; [|done].
    exfalso. assert (H : (u, a) ∈ @nil (string * Account)).
    { apply Hin. done. }
    by apply elem_of_nil in H.
  - assert (Hx : x ∈ x :: l) by apply list_elem_of_here.
    apply Hin in Hx as (Hk & Hm & HP). destruct x as [k a]. simpl in *.
    subst k. by rewrite Hm, HP.
Qed.

Lemma accountFindFirst_key (P : string → Account → bool) (u : string) (w : World) :
  (∀ k a, P k a = true → k = u) →
  Prisma.accountFindFirst P w =
  (Returned (match accounts (db w) !! u with
             | Some a => if P u a then Some (u, a) else None
             | None => None
             end), w).
Proof.
  intros H. unfold Prisma.accountFindFirst. io_unfold.
  by rewrite (head_filter_key _ u P H).
Qed.

Lemma getAccountByUserId_run (u : string) (w : World) :
  UserManagement.getAccountByUserId u w = (Returned (accounts (db w) !! u), w).
Proof.
  unfold UserManagement.getAccountByUserId.
  unfold mbind at 1, IO_bind.
  rewrite (accountFindFirst_key _ u).
  - rewrite bool_decide_eq_true_2 by done.
    io_unfold. by destruct (accounts (db w) !! u).
  - intros k a Hk. by apply bool_decide_eq_true in Hk.
Qed.

Lemma accountUpdate_run (u : string) (f : Account → Account) (a : Account)
    (w : World) :
  accounts (db w) !! u = Some a →
  Prisma.accountUpdate u f w =
  (Returned (f a),
   setDb (setAccounts (<[u := f a]> (accounts (db w))) (db w)) w).
Proof.
  intros H. unfold Prisma.accountUpdate. io_unfold. by rewrite H.
Qed.

(** ** Email confirmation *)

Section EmailConfirmation.

Import UserManagement.
Variable env : Env.

Lemma sendEmailConfirmCode_run (u : string) (w : World) :
  sendEmailConfirmCode env u w =
  match accounts (db w) !! u with
  | None => (Returned (None, Some (generateError "Invalid userId.")), w)
  | Some a =>
      if emailConfirmed a then
        (Returned (None, Some (generateError "Email already verified.")), w)
      else
        let c := randomEmailConfirmCode env (entropy w) in
        let w' :=
          setDb (setAccounts (<[u := confirmCodeData c a]> (accounts (db w)))
                   (db w)) (setEntropy (S (entropy w)) w) in
        if DEV_MODE env then
          (Returned (Some (mkInfo ("DEV MODE: Email verify code: " +:+ c)),
                     None), w')
        else
          (Returned (Some (mkInfo "Email confirmation code sent."), None),
           setMails (mails w ++ [ConfirmCodeMail c (email a)]) w')
  end.
Proof.
  unfold sendEmailConfirmCode. unfold mbind at 1, IO_bind.
  rewrite getAccountByUserId_run.
  destruct (accounts (db w) !! u) as [a|] eqn:Ha; [|done].
  destruct (emailConfirmed a) eqn:Hc; [done|].
  unfold mbind at 1, IO_bind, updateAccountConfirmCode.
  unfold mbind at 1, IO_bind. io_unfold. simpl.
  rewrite (accountUpdate_run _ _ a) by done. simpl.
  by destruct (DEV_MODE env).
Qed.

Lemma verifyEmailConfirmCode_run (u c : string) (w : World) :
  verifyEmailConfirmCode env u c w =
  match accounts (db w) !! u with
  | None => (Returned (None, Some (generateError "Invalid userId.")), w)
  | Some a =>
      if emailConfirmed a then
        (Returned (None, Some (generateError "Email already verified.")), w)
      else if negb (JS.truthyOpt (emailConfirmCode a)) then
        (Returned (None, Some (generateError
           "You must request email verification first.")), w)
      else if bool_decide (emailConfirmCode a ≠ Some c) then
        (Returned (None, Some (generateError "Invalid code.")), w)
      else
        (Returned (Some true, None),
         setUserCache (userCache w ∖ list_to_set [u])
           (setDb (setAccounts (<[u := emailConfirmedData a]> (accounts (db w)))
                     (db w)) (setEntropy (S (entropy w)) w)))
  end.
Proof.
  unfold verifyEmailConfirmCode. unfold mbind at 1, IO_bind.
  rewrite getAccountByUserId_run.
  destruct (accounts (db w) !! u) as [a|] eqn:Ha; [|done].
  destruct (emailConfirmed a) eqn:Hc; [done|].
  destruct (negb (JS.truthyOpt (emailConfirmCode a))); [done|].
  destruct (bool_decide (emailConfirmCode a ≠ Some c)); [done|].
  unfold mbind at 1, IO_bind, updateAccountEmailConfirmed.
  unfold mbind at 1, IO_bind. io_unfold. simpl.
  by rewrite (accountUpdate_run _ _ a) by done.
Qed.

Lemma sendEmailConfirmCode_unconfirmed (u : string) (a : Account) (w : World) :
  accounts (db w) !! u = Some a →
  emailConfirmed a = false →
  let c := randomEmailConfirmCode env (entropy w) in
  ∃ r w',
    sendEmailConfirmCode env u w = (Returned (Some r, None), w') ∧
    accounts (db w') = <[u := confirmCodeData c a]> (accounts (db w)) ∧
    entropy w' = S (entropy w) ∧
    userCache w' = userCache w ∧
    infoMessage r = (if DEV_MODE env
                     then "DEV MODE: Email verify code: " +:+ c
                     else "Email confirmation code sent.") ∧
    mails w' = (if DEV_MODE env then mails w
                else mails w ++ [ConfirmCodeMail c (email a)]).
Proof.
  intros Ha Hc c. rewrite sendEmailConfirmCode_run, Ha, Hc. simpl.
  destruct (DEV_MODE env); eexists _, _; (split; [reflexivity|]); done.
Qed.

Lemma already_verified (u : string) (a : Account) (w : World) :
  accounts (db w) !! u = Some a →
  emailConfirmed a = true →
  sendEmailConfirmCode env u w =
    (Returned (None, Some (generateError "Email already verified.")), w) ∧
  ∀ c, verifyEmailConfirmCode env u c w =
    (Returned (None, Some (generateError "Email already verified.")), w).
Proof.
  intros Ha Hc. split; [|intros c].
  - by rewrite sendEmailConfirmCode_run, Ha, Hc.
  - by rewrite verifyEmailConfirmCode_run, Ha, Hc.
Qed.

Lemma verify_wrong_code (u k c : string) (a : Account) (w : World) :
  accounts (db w) !! u = Some a →
  emailConfirmed a = false →
  emailConfirmCode a = Some k → k ≠ "" → c ≠ k →
  verifyEmailConfirmCode env u c w =
    (Returned (None, Some (generateError "Invalid code.")), w).
Proof.
  intros Ha Hc Hk Hne Hck.
  rewrite verifyEmailConfirmCode_run, Ha, Hc, Hk. simpl.
  destruct k as [|x k]; [done|]. simpl.
  rewrite bool_decide_eq_true_2; [done|]. congruence.
Qed.

Lemma verify_active_code (u k : string) (a : Account) (w : World) :
  accounts (db w) !! u = Some a →
  emailConfirmed a = false →
  emailConfirmCode a = Some k → k ≠ "" →
  ∃ w',
    verifyEmailConfirmCode env u k w = (Returned (Some true, None), w') ∧
    accounts (db w') = <[u := emailConfirmedData a]> (accounts (db w)) ∧
    (u ∉ userCache w') ∧
    (∀ c, verifyEmailConfirmCode env u c w' =
       (Returned (None, Some (generateError "Email already verified.")), w')) ∧
    sendEmailConfirmCode env u w' =
      (Returned (None, Some (generateError "Email already verified.")), w').
Proof.
  intros Ha Hc Hk Hne.
  rewrite verifyEmailConfirmCode_run, Ha, Hc, Hk. simpl.
  destruct k as [|x k]; [done|]. simpl.
  rewrite bool_decide_eq_false_2 by (intros H; by apply H).
  eexists. split; [reflexivity|]. split; [done|]. split.
  { simpl. rewrite elem_of_difference. intros [_ Hn]. apply Hn.
    apply elem_of_union_l, elem_of_singleton. reflexivity. }
  pose proof (already_verified u (emailConfirmedData a)
    (setUserCache (userCache w ∖ list_to_set [u])
       (setDb (setAccounts (<[u := emailConfirmedData a]> (accounts (db w)))
                 (db w)) (setEntropy (S (entropy w)) w)))) as H.
  simpl in H. rewrite lookup_insert_eq in H.
  destruct (H eq_refl eq_refl) as [Hs Hv]. done.
Qed.

(** C8: [sendEmailConfirmCode] fails when the account's email is already
    confirmed; otherwise it stores a freshly generated code in the single
    [emailConfirmCode] field of the account, whatever that field held
    before, and in development mode it returns the code in the response
    without dispatching any mail, while outside development mode it mails
    the code to the account's address and returns the generic message. *)
Theorem sendEmailConfirmCode_spec (u : string) (a : Account) (w : World) :
  accounts (db w) !! u = Some a →
  (emailConfirmed a = true →
     sendEmailConfirmCode env u w =
       (Returned (None, Some (generateError "Email already verified.")), w)) ∧
  (emailConfirmed a = false →
     let c := randomEmailConfirmCode env (entropy w) in
     ∃ r w',
       sendEmailConfirmCode env u w = (Returned (Some r, None), w') ∧
       accounts (db w') !! u = Some (confirmCodeData c a) ∧
       emailConfirmCode (confirmCodeData c a) = Some c ∧
       (∀ v, v ≠ u → accounts (db w') !! v = accounts (db w) !! v) ∧
       (DEV_MODE env = true →
          infoMessage r = "DEV MODE: Email verify code: " +:+ c ∧
          mails w' = mails w) ∧
       (DEV_MODE env = false →
          infoMessage r = "Email confirmation code sent." ∧
          mails w' = mails w ++ [ConfirmCodeMail c (email a)])).
Proof.
  intros Ha. split; intros Hc.
  - by apply (already_verified u a w).
  - intros c.
    destruct (sendEmailConfirmCode_unconfirmed u a w Ha Hc)
      as (r & w' & Hrun & Hacc & _ & _ & Hmsg & Hmail).
    exists r, w'. split; [done|]. rewrite Hacc.
    split; [apply lookup_insert_eq|]. split; [done|].
    split; [intros v Hv; by rewrite lookup_insert_ne|].
    split; intros Hdev; rewrite Hdev in Hmsg, Hmail; done.
Qed.

(** C6: email confirmation is a one-shot state machine.  For an account
    that is not yet confirmed, verification fails with 'You must request
    email verification first.' while no code is active and with
    'Invalid code.' for a code other than the active one; after two calls
    of [sendEmailConfirmCode] the active code is the second one, so the
    first one (when it differs) fails; the latest code succeeds, sets
    [emailConfirmed], clears the code and drops the user from the read
    cache, and from then on every verification or send attempt fails with
    'Email already verified.'.  Generated codes are taken to be non-empty. *)
Theorem email_confirmation_one_shot (u : string) (a : Account) (w : World) :
  accounts (db w) !! u = Some a →
  emailConfirmed a = false →
  (JS.truthyOpt (emailConfirmCode a) = false → ∀ c,
     verifyEmailConfirmCode env u c w =
       (Returned (None, Some (generateError
          "You must request email verification first.")), w)) ∧
  (∀ k c, emailConfirmCode a = Some k → k ≠ "" → c ≠ k →
     verifyEmailConfirmCode env u c w =
       (Returned (None, Some (generateError "Invalid code.")), w)) ∧
  (∀ r1 w1 r2 w2,
     sendEmailConfirmCode env u w = (r1, w1) →
     sendEmailConfirmCode env u w1 = (r2, w2) →
     let c1 := randomEmailConfirmCode env (entropy w) in
     let c2 := randomEmailConfirmCode env (entropy w1) in
     c2 ≠ "" →
     (∃ a2, accounts (db w2) !! u = Some a2 ∧
            emailConfirmed a2 = false ∧ emailConfirmCode a2 = Some c2) ∧
     (c1 ≠ c2 →
        verifyEmailConfirmCode env u c1 w2 =
          (Returned (None, Some (generateError "Invalid code.")), w2)) ∧
     (∃ w3,
        verifyEmailConfirmCode env u c2 w2 = (Returned (Some true, None), w3) ∧
        (∃ a3, accounts (db w3) !! u = Some a3 ∧
               emailConfirmed a3 = true ∧ emailConfirmCode a3 = None) ∧
        (u ∉ userCache w3) ∧
        (∀ c, verifyEmailConfirmCode env u c w3 =
           (Returned (None, Some (generateError "Email already verified.")),
            w3)) ∧
        sendEmailConfirmCode env u w3 =
          (Returned (None, Some (generateError "Email already verified.")),
           w3))).
Proof.
  intros Ha Hc. split; [|split].
  - intros Hno c. by rewrite verifyEmailConfirmCode_run, Ha, Hc, Hno.
  - intros k c. by apply verify_wrong_code.
  - intros r1 w1 r2 w2 H1 H2 c1 c2 Hne.
    destruct (sendEmailConfirmCode_unconfirmed u a w Ha Hc)
      as (i1 & w1' & Hrun1 & Hacc1 & _).
    rewrite Hrun1 in H1. injection H1 as <- <-.
    assert (Ha1 : accounts (db w1') !! u = Some (confirmCodeData c1 a)).
    { rewrite Hacc1. apply lookup_insert_eq. }
    destruct (sendEmailConfirmCode_unconfirmed u _ w1' Ha1 Hc)
      as (i2 & w2' & Hrun2 & Hacc2 & _).
    rewrite Hrun2 in H2. injection H2 as <- <-.
    assert (Ha2 : accounts (db w2') !! u
                  = Some (confirmCodeData c2 (confirmCodeData c1 a))).
    { rewrite Hacc2. apply lookup_insert_eq. }
    split; [by eexists|]. split.
    + intros Hdiff. by apply (verify_wrong_code u c2 c1 _ w2' Ha2).
    + destruct (verify_active_code u c2 _ w2' Ha2 Hc eq_refl Hne)
        as (w3 & Hrun3 & Hacc3 & Hcache & Hv & Hs).
      exists w3. split; [done|]. split; [|done].
      eexists. rewrite Hacc3. split; [apply lookup_insert_eq|done].
Qed.

End EmailConfirmation.

(** ** Password reset *)

Section PasswordReset.

Import UserManagement.
Variable env : Env.

Lemma resetCodeMatches_key opts t k a :
  resetCodeMatches opts t k a = true → k = userId opts.
Proof.
  unfold resetCodeMatches. intros H.
  apply andb_prop in H as [H _]. apply andb_prop in H as [H _].
  by apply bool_decide_eq_true in H.
Qed.

Lemma resetCodeMatches_spec opts t a :
  resetCodeMatches opts t (userId opts) a = true ↔
  resetPasswordCode a = Some (code opts) ∧
  ∃ e, resetPasswordCodeExpiresAt a = Some e ∧ t ≤ e.
Proof.
  unfold resetCodeMatches.
  rewrite !andb_true_iff, !bool_decide_eq_true.
  destruct (resetPasswordCodeExpiresAt a) as [e|].
  - rewrite Z.leb_le. split.
    + intros [[_ Hc] He]. eauto.
    + intros [Hc (e' & [= <-] & He)]. done.
  - split; [intros [_ ?]; done | intros [_ (e & ? & _)]; done].
Qed.

Lemma disconnectSockets_run (u : string) (x : option string) (w : World) :
  disconnectSockets env u x w =
  (Returned (),
   setSockets (filter (λ s, broadcaster u x s = false) (sockets w))
     (emitted w ++
        ((λ s, mkEmitted (sid s) (AUTHENTICATE_ERROR env)
                 (PayloadText "Invalid Token"))
           <$> filter (λ s, broadcaster u x s = true) (sockets w))) w).
Proof. reflexivity. Qed.

Lemma resetPassword_run (opts : ResetPasswordOpts) (w : World) :
  resetPassword env opts w =
  if negb (JS.truthy (code opts)) then
    (Returned (None, Some (generateError "Invalid code.")), w)
  else if negb (JS.truthy (newPassword opts)) then
    (Returned (None, Some (generateError "Invalid password.")), w)
  else if negb (JS.truthy (userId opts)) then
    (Returned (None, Some (generateError "Invalid userId.")), w)
  else
    match accounts (db w) !! userId opts with
    | Some a =>
        if resetCodeMatches opts (clock w) (userId opts) a then
          let hash :=
            bcryptHash env (JS.trim (newPassword opts)) 10 (entropy w) in
          let newToken :=
            generateToken env (userId opts) (passwordVersion a + 1) in
          let w1 :=
            setUserCache (userCache w ∖ list_to_set [userId opts])
              (setDb (setAccounts
                        (<[userId opts := resetPasswordData hash a]>
                           (accounts (db w))) (db w))
                 (setEntropy (S (entropy w)) w)) in
          (Returned (newToken, None),
           if JS.truthyOpt newToken
           then (disconnectSockets env (userId opts) None w1).2
           else w1)
        else
          (Returned (None, Some (generateError "Invalid or expired code.")), w)
    | None =>
        (Returned (None, Some (generateError "Invalid or expired code.")), w)
    end.
Proof.
  unfold resetPassword.
  destruct (negb (JS.truthy (code opts))); [done|].
  destruct (negb (JS.truthy (newPassword opts))); [done|].
  destruct (negb (JS.truthy (userId opts))); [done|].
  unfold mbind at 1, IO_bind. unfold now at 1. io_unfold.
  rewrite (accountFindFirst_key _ (userId opts))
    by apply resetCodeMatches_key.
  destruct (accounts (db w) !! userId opts) as [a|] eqn:Ha; [|done].
  destruct (resetCodeMatches opts (clock w) (userId opts) a); [|done].
  simpl. rewrite (accountUpdate_run _ _ a) by done. simpl.
  by destruct (JS.truthyOpt _).
Qed.

Lemma truthy_nonempty (s : string) : JS.truthy s = true ↔ s ≠ "".
Proof. destruct s; simpl; split; congruence. Qed.

Lemma resetPassword_guards_pass (opts : ResetPasswordOpts) :
  code opts ≠ "" → newPassword opts ≠ "" → userId opts ≠ "" →
  negb (JS.truthy (code opts)) = false ∧
  negb (JS.truthy (newPassword opts)) = false ∧
  negb (JS.truthy (userId opts)) = false.
Proof.
  intros H1 H2 H3.
  apply truthy_nonempty in H1, H2, H3. by rewrite H1, H2, H3.
Qed.

Lemma broadcaster_all (u : string) (s : Socket) :
  broadcaster u None s = inRoom u s.
Proof. unfold broadcaster. apply andb_true_r. Qed.

Lemma trim_allWhiteSpace (s : string) :
  JS.allWhiteSpace s = true → JS.trim s = "".
Proof.
  intros H. unfold JS.trim.
  assert (Hs : JS.trimStart s = "").
  { induction s as [|c r IH]; [done|]. simpl in *.
    apply andb_prop in H as [Hc Hr]. rewrite Hc. by apply IH. }
  by rewrite Hs.
Qed.

(** C4 (amended): for a call whose code, new password and user id are all
    non-empty, [resetPassword] fails with 'Invalid or expired code.' if and
    only if no account matches the triple (user id, stored reset code equal
    to the supplied code, expiry not yet passed).  In particular a code
    whose expiry lies in the past fails although the code matches, and a
    failing call changes nothing, so the password stays as it was. *)
Theorem resetPassword_invalid_or_expired (opts : ResetPasswordOpts) (w : World) :
  code opts ≠ "" → newPassword opts ≠ "" → userId opts ≠ "" →
  ((resetPassword env opts w).1 =
     Returned (None, Some (generateError "Invalid or expired code."))
   ↔ ¬ ∃ a, accounts (db w) !! userId opts = Some a ∧
            resetPasswordCode a = Some (code opts) ∧
            ∃ e, resetPasswordCodeExpiresAt a = Some e ∧ clock w ≤ e) ∧
  (∀ a e,
     accounts (db w) !! userId opts = Some a →
     resetPasswordCode a = Some (code opts) →
     resetPasswordCodeExpiresAt a = Some e →
     e < clock w →
     resetPassword env opts w =
       (Returned (None, Some (generateError "Invalid or expired code.")), w)) ∧
  (∀ err, (resetPassword env opts w).1 = Returned (None, Some err) →
          (resetPassword env opts w).2 = w).
Proof.
  intros H1 H2 H3.
  destruct (resetPassword_guards_pass opts H1 H2 H3) as (G1 & G2 & G3).
  rewrite resetPassword_run, G1, G2, G3.
  destruct (accounts (db w) !! userId opts) as [a|] eqn:Ha.
  - destruct (resetCodeMatches opts (clock w) (userId opts) a) eqn:Hm.
    + apply resetCodeMatches_spec in Hm as Hm'. simpl.
      split; [split|split].
      * intros [=].
      * intros Hno. exfalso. apply Hno. exists a. done.
      * intros a' e [= <-] Hc He Hlt. destruct Hm' as (_ & e' & He' & Hle).
        rewrite He in He'. injection He' as <-. lia.
      * intros err [=].
    + split; [split|split]; try done.
      * intros _ (a' & [= <-] & Hc & He).
        assert (Hm' : resetCodeMatches opts (clock w) (userId opts) a = true)
          by (apply resetCodeMatches_spec; done).
        congruence.
  - split; [split|split]; try done.
    intros _ (a' & [=] & _).
Qed.

(** C5: on a successful [resetPassword] call, one that returns a token and
    no error, the account's password is the hash of the (trimmed) new
    password, its password version has grown by exactly one, its reset code
    and expiry are cleared, the user is dropped from the read cache, the
    token is the one generated for the new password version, and every
    socket in the user's room has been sent the authentication error and
    disconnected.  Such a call happens whenever the arguments are non-empty,
    an account matches and a token is generated. *)
Theorem resetPassword_success (opts : ResetPasswordOpts) (w : World) :
  (∀ newToken w',
     resetPassword env opts w = (Returned (newToken, None), w') →
     JS.truthyOpt newToken = true →
     ∃ a,
       accounts (db w) !! userId opts = Some a ∧
       let hash := bcryptHash env (JS.trim (newPassword opts)) 10 (entropy w) in
       accounts (db w') =
         <[userId opts := resetPasswordData hash a]> (accounts (db w)) ∧
       password (resetPasswordData hash a) = hash ∧
       passwordVersion (resetPasswordData hash a) = passwordVersion a + 1 ∧
       resetPasswordCode (resetPasswordData hash a) = None ∧
       resetPasswordCodeExpiresAt (resetPasswordData hash a) = None ∧
       (userId opts ∉ userCache w') ∧
       newToken = generateToken env (userId opts) (passwordVersion a + 1) ∧
       sockets w' = filter (λ s, inRoom (userId opts) s = false) (sockets w) ∧
       (∀ s, s ∈ sockets w' → inRoom (userId opts) s = false) ∧
       emitted w' =
         emitted w ++
           ((λ s, mkEmitted (sid s) (AUTHENTICATE_ERROR env)
                    (PayloadText "Invalid Token"))
              <$> filter (λ s, inRoom (userId opts) s = true) (sockets w))) ∧
  (∀ a,
     code opts ≠ "" → newPassword opts ≠ "" → userId opts ≠ "" →
     accounts (db w) !! userId opts = Some a →
     resetCodeMatches opts (clock w) (userId opts) a = true →
     JS.truthyOpt (generateToken env (userId opts) (passwordVersion a + 1))
       = true →
     ∃ w', resetPassword env opts w =
             (Returned (generateToken env (userId opts) (passwordVersion a + 1),
                        None), w')).
Proof.
  split.
  - intros newToken w'. rewrite resetPassword_run.
    destruct (negb (JS.truthy (code opts))); [intros [=]|].
    destruct (negb (JS.truthy (newPassword opts))); [intros [=]|].
    destruct (negb (JS.truthy (userId opts))); [intros [=]|].
    destruct (accounts (db w) !! userId opts) as [a|] eqn:Ha; [|intros [=]].
    destruct (resetCodeMatches opts (clock w) (userId opts) a); [|intros [=]].
    simpl. intros [= <- <-] Htok. rewrite Htok. simpl.
    exists a. split; [done|]. split; [done|]. do 4 (split; [done|]).
    split.
    { rewrite elem_of_difference. intros [_ Hn]. apply Hn.
      apply elem_of_union_l, elem_of_singleton. reflexivity. }
    split; [done|].
    assert (Hf : filter (λ s, broadcaster (userId opts) None s = false) (sockets w)
                 = filter (λ s, inRoom (userId opts) s = false) (sockets w)).
    { apply list_filter_iff. intros s. by rewrite broadcaster_all. }
    assert (Ht : filter (λ s, broadcaster (userId opts) None s = true) (sockets w)
                 = filter (λ s, inRoom (userId opts) s = true) (sockets w)).
    { apply list_filter_iff. intros s. by rewrite broadcaster_all. }
    rewrite Hf, Ht. split; [done|]. split; [|done].
    intros s Hs. by apply list_elem_of_filter in Hs as [Hs _].
  - intros a H1 H2 H3 Ha Hm Htok.
    destruct (resetPassword_guards_pass opts H1 H2 H3) as (G1 & G2 & G3).
    rewrite resetPassword_run, G1, G2, G3, Ha, Hm. simpl. by eexists.
Qed.

(** C10: [resetPassword] trims the new password before hashing it.  A new
    password that is non-empty but consists of white space only passes the
    non-empty check and the call is accepted: with a matching account it
    returns the generated token without error and stores the hash of the
    empty string as the account's password. *)
Theorem resetPassword_whitespace_password (opts : ResetPasswordOpts)
    (a : Account) (w : World) :
  code opts ≠ "" → userId opts ≠ "" →
  newPassword opts ≠ "" → JS.allWhiteSpace (newPassword opts) = true →
  accounts (db w) !! userId opts = Some a →
  resetCodeMatches opts (clock w) (userId opts) a = true →
  negb (JS.truthy (newPassword opts)) = false ∧
  JS.trim (newPassword opts) = "" ∧
  ∃ w' a',
    resetPassword env opts w =
      (Returned (generateToken env (userId opts) (passwordVersion a + 1), None),
       w') ∧
    accounts (db w') !! userId opts = Some a' ∧
    password a' = bcryptHash env "" 10 (entropy w).
Proof.
  intros H1 H3 H2 Hws Ha Hm.
  destruct (resetPassword_guards_pass opts H1 H2 H3) as (G1 & G2 & G3).
  split; [done|]. split; [by apply trim_allWhiteSpace|].
  rewrite resetPassword_run, G1, G2, G3, Ha, Hm.
  rewrite (trim_allWhiteSpace _ Hws). simpl.
  eexists _, _. split; [reflexivity|].
  destruct (JS.truthyOpt _); simpl; rewrite lookup_insert_eq; done.
Qed.

End PasswordReset.

(** ** Account deletion *)

Section AccountDeletion.

Import UserManagement.
Variable env : Env.

(** The database after the deletion transaction for user [u]. *)
Lemma deleteAccountFromDatabase_run (u : string) (bot : option bool)
    (usr : User) (w : World) :
  users (db w) !! u = Some usr →
  deleteAccountFromDatabase env u bot w =
  (Returned (),
   setDb
     (mkDatabase
        (delete u (accounts (db w)))
        (<[u := deletedUserData bot (randomTag env (entropy w)) usr]>
           (users (db w)))
        (filter (λ f, (bool_decide (followedById f = u)
                       || bool_decide (followedToId f = u)) = false)
           (followers (db w)))
        (Prisma.deleteManyOwned u (userProfiles (db w)))
        (Prisma.deleteManyOwned u (serverChannelLastSeen (db w)))
        (Prisma.deleteManyOwned u (userDevices (db w)))
        (Prisma.deleteManyOwned u (userConnections (db w)))
        (Prisma.deleteManyOwned u (chatNotices (db w)))
        (Prisma.deleteManyOwned u (userNotices (db w)))
        (messages (db w)))
     (setEntropy (S (entropy w)) w)).
Proof.
  intros Hu. unfold deleteAccountFromDatabase, Prisma.transaction.
  io_unfold. simpl. unfold Prisma.userUpdate. simpl. by rewrite Hu.
Qed.

Lemma deleteManyOwned_spec (u : string) (l : list Owned) (r : Owned) :
  r ∈ Prisma.deleteManyOwned u l ↔ r ∈ l ∧ rowUserId r ≠ u.
Proof. unfold Prisma.deleteManyOwned. rewrite list_elem_of_filter. tauto. Qed.

(** C7: [deleteAccount] for a caller that is not a bot fails with 'You must
    leave all servers before deleting your account.' when the user is a
    member of a server, and with 'You must delete all applications before
    deleting your account.' when the user is in no server but owns an
    application, in both cases leaving everything as it was.  When no
    precondition blocks, or when the bot flag is set, it succeeds: in one
    transaction the follow rows in both directions, the profile, read-state,
    device, connection and notice rows of the user and the account row are
    deleted and the user row is anonymized ('Deleted User <tag>' or
    'Deleted Bot <tag>', avatar, banner and custom status cleared, badges
    reset); then the user is dropped from the read cache and the sockets in
    the user's room are disconnected.  Messages are kept. *)
Theorem deleteAccount_spec (u : string) (usr : User) (w : World) :
  users (db w) !! u = Some usr →
  (∀ bot, JS.truthyFlag bot = false → servers usr ≠ [] →
     deleteAccount env u bot w =
       (Returned (None, Some (generateError
          "You must leave all servers before deleting your account.")), w)) ∧
  (∀ bot a, JS.truthyFlag bot = false → servers usr = [] →
     accounts (db w) !! u = Some a → applications a ≠ [] →
     deleteAccount env u bot w =
       (Returned (None, Some (generateError
          "You must delete all applications before deleting your account.")),
        w)) ∧
  (∀ bot,
     JS.truthyFlag bot = true ∨
     (servers usr = [] ∧
      ∀ a, accounts (db w) !! u = Some a → applications a = []) →
     ∃ w',
       deleteAccount env u bot w = (Returned (Some true, None), w') ∧
       (∀ f, f ∈ followers (db w') ↔
             f ∈ followers (db w) ∧ followedById f ≠ u ∧ followedToId f ≠ u) ∧
       (∀ r, r ∈ userProfiles (db w') ↔
             r ∈ userProfiles (db w) ∧ rowUserId r ≠ u) ∧
       (∀ r, r ∈ serverChannelLastSeen (db w') ↔
             r ∈ serverChannelLastSeen (db w) ∧ rowUserId r ≠ u) ∧
       (∀ r, r ∈ userDevices (db w') ↔
             r ∈ userDevices (db w) ∧ rowUserId r ≠ u) ∧
       (∀ r, r ∈ userConnections (db w') ↔
             r ∈ userConnections (db w) ∧ rowUserId r ≠ u) ∧
       (∀ r, r ∈ chatNotices (db w') ↔
             r ∈ chatNotices (db w) ∧ rowUserId r ≠ u) ∧
       (∀ r, r ∈ userNotices (db w') ↔
             r ∈ userNotices (db w) ∧ rowUserId r ≠ u) ∧
       users (db w') =
         <[u := mkUser
                  ("Deleted " +:+ (if JS.truthyFlag bot then "Bot" else "User")
                     +:+ " " +:+ randomTag env (entropy w))
                  None None 0 None (servers usr)]> (users (db w)) ∧
       accounts (db w') = delete u (accounts (db w)) ∧
       messages (db w') = messages (db w) ∧
       (u ∉ userCache w') ∧
       sockets w' = filter (λ s, inRoom u s = false) (sockets w) ∧
       emitted w' =
         emitted w ++
           ((λ s, mkEmitted (sid s) (AUTHENTICATE_ERROR env)
                    (PayloadText "Invalid Token"))
              <$> filter (λ s, inRoom u s = true) (sockets w))).
Proof.
  intros Hu. split; [|split].
  - intros bot Hb Hs. unfold deleteAccount. io_unfold. rewrite Hu, Hb. simpl.
    destruct (servers usr); done.
  - intros bot a Hb Hs Ha Happ. unfold deleteAccount. io_unfold.
    rewrite Hu, Hb, Hs, Ha. simpl. destruct (applications a); done.
  - intros bot Hok.
    assert (Hrun : deleteAccount env u bot w =
      ((deleteAccountFromDatabase env u bot;;
        removeUserCacheByUserIds [u];;
        disconnectSockets env u None;;
        mret (Some true, None)) : IO _) w).
    { unfold deleteAccount. unfold mbind at 1, IO_bind, getWorld.
      rewrite Hu. destruct (JS.truthyFlag bot) eqn:Hb; simpl; [done|].
      destruct Hok as [|[Hs Happ]]; [done|]. rewrite Hs. simpl.
      destruct (accounts (db w) !! u) as [a|]; [|done].
      by rewrite (Happ a eq_refl). }
    rewrite Hrun. unfold mbind at 1, IO_bind.
    rewrite (deleteAccountFromDatabase_run u bot usr w Hu).
    unfold mbind at 1, IO_bind. io_unfold. simpl.
    eexists. split; [reflexivity|]. simpl.
    split.
    { intros f. rewrite list_elem_of_filter, orb_false_iff.
      rewrite !bool_decide_eq_false. tauto. }
    do 6 (split; [intros r; apply deleteManyOwned_spec|]).
    do 3 (split; [done|]).
    split.
    { rewrite elem_of_difference. intros [_ Hn]. apply Hn.
      apply elem_of_union_l, elem_of_singleton. reflexivity. }
    split.
    + apply list_filter_iff. intros s. unfold broadcaster.
      by rewrite andb_true_r.
    + do 2 f_equal. apply list_filter_iff. intros s. unfold broadcaster.
      by rewrite andb_true_r.
Qed.

End AccountDeletion.

(** ** The message route *)

Section MessageRoute.

Import ChannelMessageCreate.
Variable env : Env.

Lemma validateContent_None (f : JS.Field) :
  validateContent f = None ↔
  f = JS.Undefined ∨
  ∃ s, f = JS.Str s ∧ (1 ≤ String.length s ≤ 2000)%nat.
Proof.
  unfold validateContent, validateChain. destruct f as [| |s|].
  - split; [by left|done].
  - split; [done|]. intros [|(s & ? & _)]; done.
  - destruct (Nat.leb_spec 1 (String.length s)),
             (Nat.leb_spec (String.length s) 2000); simpl.
    + split; [|done]. intros _. right. exists s. split; [done|lia].
    + split; [done|]. intros [|(s' & [= <-] & ?)]; [done|lia].
    + split; [done|]. intros [|(s' & [= <-] & ?)]; [done|lia].
    + split; [done|]. intros [|(s' & [= <-] & ?)]; [done|lia].
  - split; [done|]. intros [|(s & ? & _)]; done.
Qed.

Lemma validation_passes_content (req : Request) :
  customExpressValidatorResult req = None →
  validateContent (content req) = None.
Proof.
  unfold customExpressValidatorResult.
  by destruct (validateContent (content req)).
Qed.

(** What the route does once validation, the inbox check and the channel
    type check have let the request through. *)
Lemma route_after_checks (req : Request) (w : World) :
  customExpressValidatorResult req = None →
  (∀ i, inbox (channelCache req) = Some i → canMessage i = true) →
  type (channelCache req) ∈ TextChannelTypes →
  route env req w =
  (trimmed ← trimmedContent (content req);
   if negb (JS.truthyOpt trimmed) && negb (bool_decide (is_Some (fileInfo req)))
   then mret (errorResponse 400 "content or attachment is required.")
   else
     match fileInfo req with
     | None => send env req None
     | Some fi => ingest env req fi
     end) w.
Proof.
  intros Hv Hi Ht. unfold route. rewrite Hv.
  destruct (inbox (channelCache req)) as [i|] eqn:Hib.
  - rewrite (Hi i eq_refl). simpl.
    by rewrite bool_decide_eq_true_2 by done.
  - by rewrite bool_decide_eq_true_2 by done.
Qed.

Lemma ingest_run (req : Request) (fi : FileInfo) (w : World) :
  let r := cdnUpload env (file fi) (filename fi) (id (channelCache req)) in
  let w1 := setCdnCalls
              (cdnCalls w ++ [(file fi, filename fi, id (channelCache req))]) w in
  ingest env req fi w =
  if errTruthy r.2 then
    (Returned (errorResponse 403
       match r.2 with
       | Some (ErrString reason) => reason
       | Some (ErrTyped ty) =>
           if bool_decide (ty = "INVALID_IMAGE")
           then "You can only upload images for now."
           else "An unknown error has occurred (" +:+ ty +:+ ")"
       | None => ""
       end), w1)
  else
    match r.1 with
    | None => (Thrown "TypeError", w1)
    | Some img =>
        send env req (Some (mkAttachment (Some (imgWidth img))
                              (Some (imgHeight img)) (imgPath img))) w1
    end.
Proof.
  intros r w1. unfold ingest, uploadImage. io_unfold. simpl. fold r. fold w1.
  destruct r as [img [[reason|ty]|]]; simpl.
  - destruct (JS.truthy reason); [done|]. by destruct img.
  - by destruct (bool_decide _).
  - by destruct img.
Qed.

Lemma send_run (req : Request) (att : option Attachment) (w : World) :
  ∃ m w', send env req att w = (Returned (mkResponse 200 (JsonMessage m)), w') ∧
          messages (db w') = messages (db w) ++ [m] ∧
          cdnCalls w' = cdnCalls w.
Proof. eexists _, _. split; [reflexivity|]. done. Qed.

Lemma ingest_not_400 (req : Request) (fi : FileInfo) (w : World) (msg : string) :
  (ingest env req fi w).1 ≠ Returned (errorResponse 400 msg).
Proof.
  rewrite ingest_run. destruct (errTruthy _); [by intros [=]|].
  destruct (cdnUpload _ _ _ _).1 as [img|]; [|done].
  destruct (send_run req (Some (mkAttachment (Some (imgWidth img))
              (Some (imgHeight img)) (imgPath img)))
              (setCdnCalls (cdnCalls w ++
                 [(file fi, filename fi, id (channelCache req))]) w))
    as (m & w' & -> & _).
  by intros [=].
Qed.

(** C1 (amended): for a request on a text-capable channel that the
    permission middleware, the body validation and the inbox check have let
    through, the route fails with the 400 'content or attachment is
    required.' error if and only if the content is absent or trims to the
    empty string and no file is attached. *)
Theorem content_or_attachment_required (req : Request) (w : World) :
  type (channelCache req) ∈ TextChannelTypes →
  customExpressValidatorResult req = None →
  (∀ i, inbox (channelCache req) = Some i → canMessage i = true) →
  ((route env req w).1 =
     Returned (errorResponse 400 "content or attachment is required.")
   ↔ blankContent (content req) ∧ fileInfo req = None).
Proof.
  intros Ht Hv Hi. rewrite (route_after_checks req w Hv Hi Ht).
  apply validation_passes_content, validateContent_None in Hv.
  unfold mbind at 1, IO_bind, blankContent.
  destruct Hv as [Hc|(s & Hc & Hlen)]; rewrite Hc; simpl.
  - destruct (fileInfo req) as [fi|] eqn:Hf.
    + rewrite bool_decide_eq_true_2 by eauto. simpl.
      split; [|intros [_ [=]]]. intros H. by apply ingest_not_400 in H.
    + rewrite bool_decide_eq_false_2 by (intros [? [=]]). simpl.
      split; [|done]. intros _. split; [by left|done].
  - destruct (JS.truthy (JS.trim s)) eqn:Htr; simpl.
    + split.
      * intros H. exfalso. destruct (fileInfo req) as [fi|].
        -- by apply ingest_not_400 in H.
        -- destruct (send_run req None w) as (m & w' & Hs & _).
           rewrite Hs in H. done.
      * intros [[[=]|(s' & [= <-] & Hs')] _].
        rewrite Hs' in Htr. done.
    + assert (Hs : JS.trim s = "") by (by destruct (JS.trim s)).
      destruct (fileInfo req) as [fi|] eqn:Hf.
      * rewrite bool_decide_eq_true_2 by eauto. simpl.
        split; [|intros [_ [=]]]. intros H. by apply ingest_not_400 in H.
      * rewrite bool_decide_eq_false_2 by (intros [? [=]]). simpl.
        split; [|done]. intros _. split; [|done]. right. eauto.
Qed.

Lemma app_singleton_neq {A} (l : list A) (x : A) : l ++ [x] ≠ l.
Proof.
  intros H. apply (f_equal length) in H. rewrite length_app in H.
  simpl in H. lia.
Qed.

(** The route hands a file to the image store exactly when the request
    passed the validation, the inbox check and the channel type check and
    carries a file. *)
Lemma upload_attempted (req : Request) (w : World) :
  cdnCalls (route env req w).2 ≠ cdnCalls w ↔
  customExpressValidatorResult req = None ∧
  (∀ i, inbox (channelCache req) = Some i → canMessage i = true) ∧
  type (channelCache req) ∈ TextChannelTypes ∧
  is_Some (fileInfo req).
Proof.
  split.
  - unfold route.
    destruct (customExpressValidatorResult req) eqn:Hv; [done|].
    destruct (match inbox (channelCache req) with
              | Some i => negb (canMessage i) | None => false end) eqn:Hb;
      [done|].
    assert (Hopen : ∀ i, inbox (channelCache req) = Some i → canMessage i = true).
    { intros i Hi. rewrite Hi in Hb. by destruct (canMessage i). }
    destruct (bool_decide (type (channelCache req) ∈ TextChannelTypes)) eqn:Ht;
      simpl; [|done].
    apply bool_decide_eq_true in Ht. intros H.
    split; [done|]. split; [done|]. split; [done|].
    destruct (fileInfo req) as [fi|] eqn:Hf; [by eexists|].
    exfalso. apply H. unfold mbind at 1, IO_bind.
    destruct (trimmedContent (content req) w) as [[t|e] w0] eqn:Htrim.
    + assert (w0 = w) as ->.
      { unfold trimmedContent in Htrim.
        destruct (content req); by injection Htrim. }
      destruct (negb (JS.truthyOpt t) && _); [done|].
      by destruct (send_run req None w) as (m & w' & -> & _ & Hcalls).
    + unfold trimmedContent in Htrim.
      destruct (content req); by injection Htrim as _ <-.
  - intros (Hv & Hi & Ht & [fi Hf]).
    rewrite (route_after_checks req w Hv Hi Ht).
    apply validation_passes_content, validateContent_None in Hv.
    unfold mbind at 1, IO_bind.
    assert (Hgo : cdnCalls (ingest env req fi w).2 ≠ cdnCalls w).
    { rewrite ingest_run. destruct (errTruthy _); [apply app_singleton_neq|].
      destruct (cdnUpload _ _ _ _).1 as [img|]; [|apply app_singleton_neq].
      destruct (send_run req (Some (mkAttachment (Some (imgWidth img))
                  (Some (imgHeight img)) (imgPath img)))
                  (setCdnCalls (cdnCalls w ++
                     [(file fi, filename fi, id (channelCache req))]) w))
        as (m & w' & -> & _ & Hcalls).
      cbn [snd]. rewrite Hcalls. apply app_singleton_neq. }
    destruct Hv as [Hc|(s & Hc & _)]; rewrite Hc;
      unfold trimmedContent; io_unfold; cbv beta iota; rewrite Hf;
      rewrite bool_decide_eq_true_2, andb_false_r by eauto; exact Hgo.
Qed.

(** C2: if the route hands the attached file to the image store and the
    store answers with an error, the request is rejected with status 403: a
    plain string error is returned verbatim, an error of type
    'INVALID_IMAGE' gives 'You can only upload images for now.', any other
    typed error gives the unknown-error message that names the type; and
    nothing is persisted or broadcast, [createMessage] is not reached. *)
Theorem upload_failure_rejected (req : Request) (fi : FileInfo) (w : World) :
  fileInfo req = Some fi →
  cdnCalls (route env req w).2 ≠ cdnCalls w →
  let err := (cdnUpload env (file fi) (filename fi) (id (channelCache req))).2 in
  errTruthy err = true →
  (∃ reason,
     (route env req w).1 = Returned (errorResponse 403 reason) ∧
     (∀ s, err = Some (ErrString s) → reason = s) ∧
     (err = Some (ErrTyped "INVALID_IMAGE") →
        reason = "You can only upload images for now.") ∧
     (∀ ty, err = Some (ErrTyped ty) → ty ≠ "INVALID_IMAGE" →
        reason = "An unknown error has occurred (" +:+ ty +:+ ")")) ∧
  db (route env req w).2 = db w ∧
  messages (db (route env req w).2) = messages (db w) ∧
  emitted (route env req w).2 = emitted w.
Proof.
  intros Hf Hcalls err Herr. revert Hcalls. unfold route.
  destruct (customExpressValidatorResult req); [done|].
  destruct (match inbox (channelCache req) with
            | Some i => negb (canMessage i) | None => false end); [done|].
  destruct (negb (bool_decide _)); [done|].
  rewrite Hf.
  destruct (content req) as [| |s|]; unfold trimmedContent; io_unfold;
    cbv beta iota.
  4: { intros H. exfalso. by apply H. }
  all: rewrite bool_decide_eq_true_2, andb_false_r by eauto.
  all: rewrite ingest_run; fold err; rewrite Herr; simpl; intros _.
  all: split; [|done]; eexists; (split; [reflexivity|]).
  all: split; [by intros s0 ->|].
  all: split; [by intros ->|]; intros ty -> Hty.
  all: by rewrite bool_decide_eq_false_2.
Qed.

Lemma middleware_inbox (req : Request) (w : World) (i : Inbox) :
  inbox (channelCache req) = Some i →
  channelMessageCreate env req w = route env req w.
Proof.
  intros Hi. unfold channelMessageCreate, channelPermissions,
    memberHasRolePermission. by rewrite Hi.
Qed.

Lemma route_blocked (req : Request) (w : World) (i : Inbox) :
  inbox (channelCache req) = Some i → canMessage i = false →
  route env req w =
  match customExpressValidatorResult req with
  | Some validateError => (Returned (mkResponse 400 (JsonError validateError)), w)
  | None => (Returned (errorResponse 400 "You cannot message this user."), w)
  end.
Proof.
  intros Hi Hc. unfold route. rewrite Hi, Hc.
  by destruct (customExpressValidatorResult req).
Qed.

Lemma validation_messages (req : Request) (e : ApiError) :
  customExpressValidatorResult req = Some e →
  message e ≠ "You cannot message this user.".
Proof.
  unfold customExpressValidatorResult, validateContent, validateSocketId,
    validateChain.
  destruct (content req) as [| |s|];
    [destruct (socketId req) as [| |s'|]| |
     destruct ((1 <=? String.length s)%nat && (String.length s <=? 2000)%nat);
     [destruct (socketId req) as [| |s'|]|] |];
    try destruct ((1 <=? String.length s')%nat
                  && (String.length s' <=? 255)%nat);
    simpl; intros [= <-]; done.
Qed.

(** C3 (amended): for a direct-message ('inbox') channel the bitwise
    channel-permission and role-permission checks are bypassed: the request
    goes to the route whatever the permission data are, and the outcome
    does not depend on them.  Sending is governed by the recipient's
    [canMessage] flag: when it is false the request fails with status 400
    and changes nothing, so no message is created, and the error is
    'You cannot message this user.' whenever the body passes validation (a
    validation error is reported first); when it is true the request is
    never answered with that error. *)
Theorem inbox_permission (req : Request) (w : World) (i : Inbox) :
  inbox (channelCache req) = Some i →
  channelMessageCreate env req w = route env req w ∧
  (∀ channelBits roles owner,
     channelMessageCreate env (withPermissions channelBits roles owner req) w
     = channelMessageCreate env req w) ∧
  (canMessage i = false →
     (∃ resp, channelMessageCreate env req w = (Returned resp, w) ∧
              status resp = 400) ∧
     (customExpressValidatorResult req = None →
        channelMessageCreate env req w =
          (Returned (errorResponse 400 "You cannot message this user."), w))) ∧
  (canMessage i = true →
     (channelMessageCreate env req w).1 ≠
       Returned (errorResponse 400 "You cannot message this user.")).
Proof.
  intros Hi. split; [by apply (middleware_inbox req w i)|]. split; [|split].
  - intros channelBits roles owner.
    rewrite (middleware_inbox req w i Hi).
    by rewrite (middleware_inbox (withPermissions _ _ _ req) w i).
  - intros Hc. rewrite (middleware_inbox req w i Hi).
    rewrite (route_blocked req w i Hi Hc). split.
    + destruct (customExpressValidatorResult req); by eexists.
    + by intros ->.
  - intros Hc. rewrite (middleware_inbox req w i Hi).
    destruct (customExpressValidatorResult req) as [e|] eqn:Hv.
    + unfold route. rewrite Hv. simpl. intros [= He].
      apply (validation_messages req e Hv). by rewrite He.
    + unfold route. rewrite Hv, Hi, Hc. simpl.
      destruct (negb (bool_decide _)); [by intros [=]|].
      unfold mbind at 1, IO_bind.
      destruct (trimmedContent (content req) w) as [[t|x] w1];
        [|by intros [=]].
      destruct (negb (JS.truthyOpt t) && _); [by intros [=]|].
      destruct (fileInfo req) as [fi|].
      * apply ingest_not_400.
      * destruct (send_run req None w1) as (m & w' & -> & _). by intros [=].
Qed.

(** C9: the content validator accepts a string of exactly 1 and of exactly
    2000 characters, so the body validation of such a request reports no
    content error; a content of length 0 or 2001 is rejected, and the route
    answers such a request with status 400 and 'Content length must be
    between 1 and 2000 characters.' without doing anything else. *)
Theorem content_length_boundary (s : string) :
  (String.length s = 1%nat ∨ String.length s = 2000%nat →
     validateContent (JS.Str s) = None ∧
     ∀ req, content req = JS.Str s →
       customExpressValidatorResult req =
         generateError <$> validateSocketId (socketId req)) ∧
  (String.length s = 0%nat ∨ String.length s = 2001%nat →
     validateContent (JS.Str s) =
       Some "Content length must be between 1 and 2000 characters." ∧
     ∀ req w, content req = JS.Str s →
       route env req w =
         (Returned (errorResponse 400
            "Content length must be between 1 and 2000 characters."), w)).
Proof.
  split; intros Hlen.
  - assert (Hv : validateContent (JS.Str s) = None).
    { unfold validateContent, validateChain.
      destruct Hlen as [-> | ->]; reflexivity. }
    split; [done|]. intros req Hc.
    unfold customExpressValidatorResult. by rewrite Hc, Hv.
  - assert (Hv : validateContent (JS.Str s) =
                 Some "Content length must be between 1 and 2000 characters.").
    { unfold validateContent, validateChain.
      destruct Hlen as [-> | ->]; reflexivity. }
    split; [done|]. intros req w Hc.
    unfold route, customExpressValidatorResult. by rewrite Hc, Hv.
Qed.

End MessageRoute.

(** ** The theorems at concrete inputs *)

Section Instances.

Import UserManagement ChannelMessageCreate.

(** C1, as stated, fails.  A body whose content is the empty string,
    without a file, on a text channel: the content trims to the empty string and no attachment is
    present, yet the request is answered with the validation error. *)
Lemma content_or_attachment_required_counterexample :
  let req := Sample.request (JS.Str "") Sample.textChannel None in
  type (channelCache req) ∈ TextChannelTypes ∧
  blankContent (content req) ∧ fileInfo req = None ∧
  route (Sample.env false) req Sample.world =
    (Returned (errorResponse 400
       "Content length must be between 1 and 2000 characters."),
     Sample.world) ∧
  (route (Sample.env false) req Sample.world).1 ≠
    Returned (errorResponse 400 "content or attachment is required.").
Proof.
  simpl. split; [repeat constructor|]. split.
  { right. exists "". done. }
  split; [done|]. split; [reflexivity|]. intros [=].
Qed.

Lemma content_or_attachment_required_witness :
  (route (Sample.env false)
     (Sample.request (JS.Str "   ") Sample.textChannel None) Sample.world).1 =
  Returned (errorResponse 400 "content or attachment is required.").
Proof.
  apply (content_or_attachment_required (Sample.env false)
           (Sample.request (JS.Str "   ") Sample.textChannel None)
           Sample.world).
  - simpl. apply list_elem_of_further, list_elem_of_here.
  - reflexivity.
  - simpl. intros i H. discriminate H.
  - split; [|reflexivity]. right. exists "   ". split; reflexivity.
Defined.

Lemma upload_failure_rejected_witness :
  ∃ reason,
    (route (Sample.env false)
       (Sample.request JS.Undefined Sample.textChannel
          (Some (mkFileInfo "bytes" "notes.txt"))) Sample.world).1 =
    Returned (errorResponse 403 reason) ∧
    reason = "You can only upload images for now.".
Proof.
  destruct (upload_failure_rejected (Sample.env false)
              (Sample.request JS.Undefined Sample.textChannel
                 (Some (mkFileInfo "bytes" "notes.txt")))
              (mkFileInfo "bytes" "notes.txt") Sample.world)
    as [(reason & Hr & _ & Hinvalid & _) _].
  - reflexivity.
  - vm_compute. intros H. discriminate H.
  - reflexivity.
  - exists reason. split; [exact Hr|]. apply Hinvalid. reflexivity.
Defined.

(** C3, as stated, fails.  A blocked direct-message channel and a body
    whose content is the empty string: the request fails with the validation error, not with
    'You cannot message this user.'. *)
Lemma inbox_permission_counterexample :
  let req := Sample.request (JS.Str "") Sample.blockedInbox None in
  inbox (channelCache req) = Some (mkInbox false) ∧
  channelMessageCreate (Sample.env false) req Sample.world =
    (Returned (errorResponse 400
       "Content length must be between 1 and 2000 characters."),
     Sample.world) ∧
  (channelMessageCreate (Sample.env false) req Sample.world).1 ≠
    Returned (errorResponse 400 "You cannot message this user.").
Proof.
  simpl. split; [reflexivity|]. split; [reflexivity|]. intros [=].
Qed.

Lemma inbox_permission_witness :
  channelMessageCreate (Sample.env false)
    (Sample.request (JS.Str "hello") Sample.blockedInbox None) Sample.world =
  (Returned (errorResponse 400 "You cannot message this user."), Sample.world).
Proof.
  destruct (inbox_permission (Sample.env false)
              (Sample.request (JS.Str "hello") Sample.blockedInbox None)
              Sample.world (mkInbox false) eq_refl)
    as (_ & _ & Hblocked & _).
  destruct (Hblocked eq_refl) as [_ H]. apply H. reflexivity.
Defined.

(** C4, as stated, fails.  An empty new password for a user without any
    pending reset code: no
    account matches the triple, yet the call fails with 'Invalid password.',
    not with 'Invalid or expired code.'. *)
Lemma resetPassword_invalid_or_expired_counterexample :
  let opts := mkResetPasswordOpts "u1" "secure-A" "" in
  (¬ ∃ a, accounts (db Sample.world) !! userId opts = Some a ∧
          resetPasswordCode a = Some (code opts) ∧
          ∃ e, resetPasswordCodeExpiresAt a = Some e ∧ clock Sample.world ≤ e) ∧
  resetPassword (Sample.env false) opts Sample.world =
    (Returned (None, Some (generateError "Invalid password.")), Sample.world) ∧
  (resetPassword (Sample.env false) opts Sample.world).1 ≠
    Returned (None, Some (generateError "Invalid or expired code.")).
Proof.
  simpl. split.
  { intros (a & Ha & Hc & _). vm_compute in Ha. injection Ha as <-.
    discriminate Hc. }
  split; [reflexivity|]. intros [=].
Qed.

Lemma resetPassword_invalid_or_expired_witness :
  resetPassword (Sample.env true)
    (mkResetPasswordOpts "u1" "secure-A" "correct horse") Sample.resetExpired =
  (Returned (None, Some (generateError "Invalid or expired code.")),
   Sample.resetExpired).
Proof.
  destruct (resetPassword_invalid_or_expired (Sample.env true)
              (mkResetPasswordOpts "u1" "secure-A" "correct horse")
              Sample.resetExpired) as (_ & Hexpired & _).
  - simpl. intros H. discriminate H.
  - simpl. intros H. discriminate H.
  - simpl. intros H. discriminate H.
  - apply (Hexpired Sample.aliceResetting 3601000).
    + vm_compute. reflexivity.
    + reflexivity.
    + reflexivity.
    + vm_compute. reflexivity.
Defined.

Lemma resetPassword_success_witness :
  ∃ w' a',
    resetPassword (Sample.env true)
      (mkResetPasswordOpts "u1" "secure-A" "correct horse")
      Sample.resetPending =
    (Returned (Some "token.u1", None), w') ∧
    accounts (db w') !! "u1" = Some a' ∧
    password a' = "bcrypt:correct horse" ∧
    passwordVersion a' = 4 ∧
    resetPasswordCode a' = None ∧
    sockets w' = [mkSocket "s2" ["u2"]].
Proof.
  destruct (resetPassword_success (Sample.env true)
              (mkResetPasswordOpts "u1" "secure-A" "correct horse")
              Sample.resetPending) as [Heffects Hruns].
  destruct (Hruns Sample.aliceResetting) as [w' Hrun].
  - simpl. intros H. discriminate H.
  - simpl. intros H. discriminate H.
  - simpl. intros H. discriminate H.
  - vm_compute. reflexivity.
  - vm_compute. reflexivity.
  - reflexivity.
  - destruct (Heffects _ w' Hrun eq_refl)
      as (a & Ha & Hacc & _ & _ & _ & _ & _ & _ & Hsockets & _).
    vm_compute in Ha. injection Ha as <-.
    eexists w', _. split; [exact Hrun|]. rewrite Hacc, Hsockets.
    split; [apply lookup_insert_eq|]. split; [reflexivity|].
    split; [reflexivity|]. split; [reflexivity|]. vm_compute. reflexivity.
Defined.

Lemma resetPassword_whitespace_password_witness :
  ∃ w' a',
    resetPassword (Sample.env true)
      (mkResetPasswordOpts "u1" "secure-A" "   ") Sample.resetPending =
    (Returned (Some "token.u1", None), w') ∧
    accounts (db w') !! "u1" = Some a' ∧
    password a' = "bcrypt:".
Proof.
  destruct (resetPassword_whitespace_password (Sample.env true)
              (mkResetPasswordOpts "u1" "secure-A" "   ")
              Sample.aliceResetting Sample.resetPending)
    as (_ & _ & w' & a' & H).
  - simpl. intros H. discriminate H.
  - simpl. intros H. discriminate H.
  - simpl. intros H. discriminate H.
  - reflexivity.
  - vm_compute. reflexivity.
  - vm_compute. reflexivity.
  - exists w', a'. exact H.
Defined.

Lemma sendEmailConfirmCode_spec_witness :
  ∃ r w',
    sendEmailConfirmCode (Sample.env true) "u1" Sample.world =
      (Returned (Some r, None), w') ∧
    infoMessage r = "DEV MODE: Email verify code: 4711A" ∧
    mails w' = [].
Proof.
  destruct (sendEmailConfirmCode_spec (Sample.env true) "u1" Sample.alice
              Sample.world) as [_ Hfresh].
  - vm_compute. reflexivity.
  - destruct (Hfresh eq_refl) as (r & w' & Hrun & _ & _ & _ & Hdev & _).
    destruct (Hdev eq_refl) as [Hmsg Hmail].
    exists r, w'. split; [exact Hrun|]. split; [exact Hmsg | exact Hmail].
Defined.

Lemma email_confirmation_one_shot_witness :
  let env := Sample.env true in
  let w1 := (sendEmailConfirmCode env "u1" Sample.world).2 in
  let w2 := (sendEmailConfirmCode env "u1" w1).2 in
  verifyEmailConfirmCode env "u1" "4711A" w2 =
    (Returned (None, Some (generateError "Invalid code.")), w2) ∧
  ∃ w3,
    verifyEmailConfirmCode env "u1" "4711B" w2 =
      (Returned (Some true, None), w3) ∧
    verifyEmailConfirmCode env "u1" "4711B" w3 =
      (Returned (None, Some (generateError "Email already verified.")), w3).
Proof.
  intros env w1 w2.
  destruct (email_confirmation_one_shot env "u1" Sample.alice Sample.world)
    as (_ & _ & Htwo).
  - vm_compute. reflexivity.
  - reflexivity.
  - destruct (Htwo (sendEmailConfirmCode env "u1" Sample.world).1 w1
                (sendEmailConfirmCode env "u1" w1).1 w2)
      as (_ & Hstale & w3 & Hok & _ & _ & Hagain & _).
    + apply surjective_pairing.
    + apply surjective_pairing.
    + vm_compute. intros H. discriminate H.
    + split.
      * apply Hstale. vm_compute. intros H. discriminate H.
      * exists w3. split; [exact Hok | exact (Hagain "4711B")].
Defined.

Lemma deleteAccount_spec_witness :
  ∃ w',
    deleteAccount (Sample.env false) "u1" None Sample.world =
      (Returned (Some true, None), w') ∧
    accounts (db w') !! "u1" = None ∧
    username <$> users (db w') !! "u1" = Some "Deleted User tagA" ∧
    mkFollower "u1" "u2" ∉ followers (db w').
Proof.
  destruct (deleteAccount_spec (Sample.env false) "u1" Sample.aliceUser
              Sample.world) as (_ & _ & Hgo).
  - vm_compute. reflexivity.
  - destruct (Hgo None) as (w' & Hrun & Hfollow & _ & _ & _ & _ & _ & _
                            & Husers & Haccounts & _).
    + right. split; [reflexivity|]. intros a Ha. vm_compute in Ha.
      injection Ha as <-. reflexivity.
    + exists w'. split; [exact Hrun|]. rewrite Husers, Haccounts.
      rewrite lookup_delete_eq, lookup_insert_eq. split; [reflexivity|].
      split; [reflexivity|].
      intros Hin. apply Hfollow in Hin as (_ & Hby & _). apply Hby.
      reflexivity.
Defined.

Lemma content_length_boundary_witness :
  validateContent (JS.Str (Sample.chars 2000)) = None ∧
  validateContent (JS.Str (Sample.chars 2001)) =
    Some "Content length must be between 1 and 2000 characters.".
Proof.
  split.
  - destruct (content_length_boundary (Sample.env false) (Sample.chars 2000))
      as [Haccept _].
    apply Haccept. right. vm_compute. reflexivity.
  - destruct (content_length_boundary (Sample.env false) (Sample.chars 2001))
      as [_ Hreject].
    apply Hreject. right. vm_compute. reflexivity.
Defined.

End Instances.

(** ** Lookups by a non-key column *)

Lemma head_filter_cases (m : gmap string Account) (P : string → Account → bool) :
  match head (filter (λ kv, P kv.1 kv.2 = true) (map_to_list m)) with
  | Some (k, a) => m !! k = Some a ∧ P k a = true
  | None => ∀ k a, m !! k = Some a → P k a = false
  end.
Proof.
  destruct (filter _ (map_to_list m)) as [|[k a] l] eqn:Hl; simpl.
  - intros k a Hm. destruct (P k a) eqn:HP; [|done]. exfalso.
    assert (H : (k, a) ∈ filter (λ kv, P kv.1 kv.2 = true) (map_to_list m)).
    { apply list_elem_of_filter. split; [done|]. by apply elem_of_map_to_list. }
    rewrite Hl in H. by apply elem_of_nil in H.
  - assert (H : (k, a) ∈ filter (λ kv, P kv.1 kv.2 = true) (map_to_list m)).
    { rewrite Hl. apply list_elem_of_here. }
    apply list_elem_of_filter in H as [HP Hm].
    by apply elem_of_map_to_list in Hm.
Qed.

Lemma head_filter_unique (m : gmap string Account) (P : string → Account → bool)
    (k : string) (a : Account) :
  m !! k = Some a → P k a = true →
  (∀ k' a', m !! k' = Some a' → P k' a' = true → k' = k) →
  head (filter (λ kv, P kv.1 kv.2 = true) (map_to_list m)) = Some (k, a).
Proof.
  intros Hm HP Huniq. pose proof (head_filter_cases m P) as H.
  destruct (head _) as [[k' a']|].
  - destruct H as [Hm' HP']. pose proof (Huniq _ _ Hm' HP'). subst k'.
    rewrite Hm in Hm'. by injection Hm' as <-.
  - rewrite (H k a Hm) in HP. done.
Qed.

(** ** Password reset links *)

Section ResetLink.

Import UserManagement.
Variable env : Env.

Lemma sendResetPasswordCode_cases (mail : string) (w : World) :
  (sendResetPasswordCode env mail w =
     (Returned (None, Some (generateError "Invalid email.")), w) ∧
   ∀ k a, accounts (db w) !! k = Some a → email a ≠ mail) ∨
  ∃ k a,
    accounts (db w) !! k = Some a ∧ email a = mail ∧
    let c := randomSecureCode env (entropy w) in
    let url := CLIENT_URL env +:+ "/reset-password?code=" +:+ c
                 +:+ "&userId=" +:+ k in
    let w' :=
      setDb (setAccounts
               (<[k := forgotPasswordData c (clock w + 60 * 60 * 1000) a]>
                  (accounts (db w))) (db w))
        (setEntropy (S (entropy w)) w) in
    sendResetPasswordCode env mail w =
    if DEV_MODE env then
      (Returned (Some (mkInfo ("DEV MODE: Password reset link: " +:+ url)),
                 None), w')
    else
      (Returned (Some (mkInfo "Password reset link sent to your email."), None),
       setMails (mails w ++ [ResetPasswordMail url (email a)]) w').
Proof.
  unfold sendResetPasswordCode. unfold mbind at 1, IO_bind.
  unfold Prisma.accountFindFirst. io_unfold.
  pose proof (head_filter_cases (accounts (db w))
                (λ _ a, bool_decide (email a = mail))) as H.
  cbv beta in H. destruct (head _) as [[k a]|].
  - right. destruct H as [Hm HP]. apply bool_decide_eq_true in HP.
    exists k, a. split; [done|]. split; [done|].
    unfold updateForgotPasswordCode. io_unfold. simpl.
    rewrite (accountUpdate_run _ _ a) by done. simpl.
    by destruct (DEV_MODE env).
  - left. split; [done|]. intros k a Hm. specialize (H k a Hm).
    by apply bool_decide_eq_false in H.
Qed.

(** X1: [sendResetPasswordCode] for an address that no account has fails with
    'Invalid email.' and changes nothing.  When it succeeds, an account with
    that address now holds the newly drawn code with an expiry exactly one
    hour after the call, replacing whatever reset code it held, and no other
    account row changed; in development mode the link, which carries the
    code and the user id, is in the response and no mail is sent, otherwise
    the link is mailed to the address.  It succeeds whenever some account has
    the address. *)
Theorem sendResetPasswordCode_spec (mail : string) (w : World) :
  ((∀ k a, accounts (db w) !! k = Some a → email a ≠ mail) →
     sendResetPasswordCode env mail w =
       (Returned (None, Some (generateError "Invalid email.")), w)) ∧
  (∀ info w',
     sendResetPasswordCode env mail w = (Returned (Some info, None), w') →
     ∃ k a,
       accounts (db w) !! k = Some a ∧ email a = mail ∧
       let c := randomSecureCode env (entropy w) in
       let url := CLIENT_URL env +:+ "/reset-password?code=" +:+ c
                    +:+ "&userId=" +:+ k in
       (∃ a', accounts (db w') !! k = Some a' ∧
              resetPasswordCode a' = Some c ∧
              resetPasswordCodeExpiresAt a' = Some (clock w + 3600000) ∧
              password a' = password a ∧
              passwordVersion a' = passwordVersion a) ∧
       (∀ v, v ≠ k → accounts (db w') !! v = accounts (db w) !! v) ∧
       (DEV_MODE env = true →
          infoMessage info = "DEV MODE: Password reset link: " +:+ url ∧
          mails w' = mails w) ∧
       (DEV_MODE env = false →
          infoMessage info = "Password reset link sent to your email." ∧
          mails w' = mails w ++ [ResetPasswordMail url mail])) ∧
  ((∃ k a, accounts (db w) !! k = Some a ∧ email a = mail) →
     ∃ info w',
       sendResetPasswordCode env mail w = (Returned (Some info, None), w')).
Proof.
  destruct (sendResetPasswordCode_cases mail w)
    as [[Hrun Hnone]|(k & a & Hm & He & Hrun)].
  - split; [done|]. split.
    + intros info w'. rewrite Hrun. intros [=].
    + intros (k & a & Hm & He). by destruct (Hnone k a Hm).
  - cbv zeta in Hrun. split; [|split].
    + intros Hnone. by destruct (Hnone k a Hm).
    + intros info w' Hok. rewrite Hrun in Hok. exists k, a.
      split; [done|]. split; [done|]. cbv zeta.
      destruct (DEV_MODE env); injection Hok as <- <-; simpl.
      * split; [eexists; rewrite lookup_insert_eq; done|].
        split; [intros v Hv; by rewrite lookup_insert_ne|]. done.
      * split; [eexists; rewrite lookup_insert_eq; done|].
        split; [intros v Hv; by rewrite lookup_insert_ne|].
        split; [done|]. intros _. by rewrite He.
    + intros _. rewrite Hrun. destruct (DEV_MODE env); by eexists _, _.
Qed.

(** X2: a reset link is valid for exactly one hour.  After
    [sendResetPasswordCode] succeeded at time [clock w] for the account with
    user id [k], [resetPassword] with that user id, the drawn code and a
    non-empty new password succeeds at any time up to and including one hour
    later, storing the hash of the trimmed password and incrementing the
    password version, and fails with 'Invalid or expired code.', changing
    nothing, at any later time. *)
Theorem reset_link_valid_one_hour (mail : string) (w w1 : World) (info : Info) :
  sendResetPasswordCode env mail w = (Returned (Some info, None), w1) →
  ∃ k a,
    accounts (db w) !! k = Some a ∧ email a = mail ∧
    ∀ t pw,
      randomSecureCode env (entropy w) ≠ "" → k ≠ "" → pw ≠ "" →
      let opts := mkResetPasswordOpts k (randomSecureCode env (entropy w)) pw in
      (t ≤ clock w + 3600000 →
         ∃ w2 a2,
           resetPassword env opts (setClock t w1) =
             (Returned (generateToken env k (passwordVersion a + 1), None), w2) ∧
           accounts (db w2) !! k = Some a2 ∧
           password a2 = bcryptHash env (JS.trim pw) 10 (S (entropy w)) ∧
           passwordVersion a2 = passwordVersion a + 1 ∧
           resetPasswordCode a2 = None) ∧
      (clock w + 3600000 < t →
         resetPassword env opts (setClock t w1) =
           (Returned (None, Some (generateError "Invalid or expired code.")),
            setClock t w1)).
Proof.
  intros Hsend.
  destruct (sendResetPasswordCode_cases mail w)
    as [[Hrun _]|(k & a & Hm & He & Hrun)].
  { rewrite Hrun in Hsend. discriminate Hsend. }
  cbv zeta in Hrun. rewrite Hrun in Hsend. exists k, a.
  split; [done|]. split; [done|]. intros t pw Hc Hk Hpw opts.
  destruct (resetPassword_guards_pass opts Hc Hpw Hk) as (G1 & G2 & G3).
  set (c := randomSecureCode env (entropy w)) in *.
  assert (Hacc : accounts (db (setClock t w1)) !! k
                 = Some (forgotPasswordData c (clock w + 60 * 60 * 1000) a)).
  { destruct (DEV_MODE env); injection Hsend as _ <-; simpl;
      apply lookup_insert_eq. }
  assert (Hent : entropy (setClock t w1) = S (entropy w)).
  { destruct (DEV_MODE env); by injection Hsend as _ <-. }
  rewrite resetPassword_run, G1, G2, G3. simpl userId. rewrite Hacc.
  split.
  - intros Ht.
    assert (Hmatch : resetCodeMatches opts (clock (setClock t w1)) k
                       (forgotPasswordData c (clock w + 60 * 60 * 1000) a) = true).
    { apply (resetCodeMatches_spec opts). split; [done|].
      eexists. split; [reflexivity|]. simpl. lia. }
    rewrite Hmatch. cbv zeta. eexists _, _. split; [reflexivity|].
    rewrite Hent.
    destruct (JS.truthyOpt _); simpl; rewrite lookup_insert_eq; done.
  - intros Ht.
    assert (Hmatch : resetCodeMatches opts (clock (setClock t w1)) k
                       (forgotPasswordData c (clock w + 60 * 60 * 1000) a) = false).
    { destruct (resetCodeMatches _ _ _ _) eqn:Hm'; [|done].
      apply (resetCodeMatches_spec opts) in Hm' as (_ & e & [= <-] & Hle).
      simpl in Hle. lia. }
    by rewrite Hmatch.
Qed.

(** X3: a reset code works once.  After a successful [resetPassword], the
    same call fails with 'Invalid or expired code.' and changes nothing, in
    the state the first call left and in any state with the same account
    rows, whatever the time. *)
Theorem reset_code_single_use (opts : ResetPasswordOpts) (w w1 : World)
    (newToken : option string) :
  resetPassword env opts w = (Returned (newToken, None), w1) →
  ∀ w2, accounts (db w2) = accounts (db w1) →
    resetPassword env opts w2 =
      (Returned (None, Some (generateError "Invalid or expired code.")), w2).
Proof.
  rewrite resetPassword_run. intros Hok w2 Hsame.
  rewrite resetPassword_run.
  destruct (negb (JS.truthy (code opts))); [discriminate Hok|].
  destruct (negb (JS.truthy (newPassword opts))); [discriminate Hok|].
  destruct (negb (JS.truthy (userId opts))); [discriminate Hok|].
  destruct (accounts (db w) !! userId opts) as [a|] eqn:Ha;
    [|discriminate Hok].
  destruct (resetCodeMatches opts (clock w) (userId opts) a);
    [|discriminate Hok].
  cbv zeta in Hok. injection Hok as _ Hw1. rewrite Hsame.
  assert (Hacc : accounts (db w1) !! userId opts
                 = Some (resetPasswordData
                           (bcryptHash env (JS.trim (newPassword opts)) 10
                              (entropy w)) a)).
  { rewrite <- Hw1. destruct (JS.truthyOpt _); simpl; apply lookup_insert_eq. }
  rewrite Hacc.
  assert (Hno : ∀ h t, resetCodeMatches opts t (userId opts)
                         (resetPasswordData h a) = false).
  { intros h t. unfold resetCodeMatches. simpl.
    apply andb_false_r. }
  by rewrite Hno.
Qed.

(** X4: a second reset request supersedes the first.  When exactly one
    account has the address, two calls of [sendResetPasswordCode] in a row
    leave the second code, with its own one-hour expiry, on the account; if
    the two codes differ, [resetPassword] with the first code no longer
    succeeds, whatever the password and the time. *)
Theorem reset_link_superseded (mail k : string) (a : Account) (w : World) :
  accounts (db w) !! k = Some a → email a = mail →
  (∀ k' a', accounts (db w) !! k' = Some a' → email a' = mail → k' = k) →
  let c1 := randomSecureCode env (entropy w) in
  let c2 := randomSecureCode env (S (entropy w)) in
  let w2 := (sendResetPasswordCode env mail
               (sendResetPasswordCode env mail w).2).2 in
  (∃ a2, accounts (db w2) !! k = Some a2 ∧
         resetPasswordCode a2 = Some c2 ∧
         resetPasswordCodeExpiresAt a2 = Some (clock w + 3600000)) ∧
  (c1 ≠ c2 →
     ∀ pw w', accounts (db w') = accounts (db w2) →
       ∃ err, resetPassword env (mkResetPasswordOpts k c1 pw) w' =
                (Returned (None, Some err), w')).
Proof.
  intros Hm He Huniq c1 c2 w2.
  assert (H1 : ∃ w1, (sendResetPasswordCode env mail w).2 = w1 ∧
            accounts (db w1) =
              <[k := forgotPasswordData c1 (clock w + 60 * 60 * 1000) a]>
                (accounts (db w)) ∧
            clock w1 = clock w ∧ entropy w1 = S (entropy w)).
  { destruct (sendResetPasswordCode_cases mail w)
      as [[_ Hnone]|(k' & a' & Hm' & He' & Hrun)].
    { by destruct (Hnone k a Hm). }
    pose proof (Huniq k' a' Hm' He'). subst k'.
    rewrite Hm in Hm'. injection Hm' as <-.
    cbv zeta in Hrun. rewrite Hrun.
    destruct (DEV_MODE env); by eexists. }
  destruct H1 as (w1 & Hw1 & Hacc1 & Hclock1 & Hent1).
  assert (Hk1 : accounts (db w1) !! k
                = Some (forgotPasswordData c1 (clock w + 60 * 60 * 1000) a)).
  { rewrite Hacc1. apply lookup_insert_eq. }
  assert (H2 : accounts (db w2) !! k =
            Some (forgotPasswordData c2 (clock w + 60 * 60 * 1000)
                    (forgotPasswordData c1 (clock w + 60 * 60 * 1000) a))).
  { unfold w2. rewrite Hw1.
    destruct (sendResetPasswordCode_cases mail w1)
      as [[_ Hnone]|(k' & a' & Hm' & He' & Hrun)].
    { by destruct (Hnone k _ Hk1). }
    assert (k' = k) as ->.
    { destruct (decide (k' = k)) as [|Hne]; [done|].
      rewrite Hacc1, lookup_insert_ne in Hm' by done. by apply (Huniq k' a'). }
    rewrite Hk1 in Hm'. injection Hm' as <-.
    cbv zeta in Hrun. rewrite Hrun, Hclock1, Hent1.
    destruct (DEV_MODE env); simpl; apply lookup_insert_eq. }
  split; [eexists; split; [exact H2|done]|].
  intros Hdiff pw w' Hsame. rewrite resetPassword_run.
  destruct (negb (JS.truthy _)); [by eexists|].
  destruct (negb (JS.truthy _)); [by eexists|].
  destruct (negb (JS.truthy _)); [by eexists|].
  simpl userId. rewrite Hsame, H2.
  assert (Hno : ∀ t, resetCodeMatches (mkResetPasswordOpts k c1 pw) t k
            (forgotPasswordData c2 (clock w + 60 * 60 * 1000)
               (forgotPasswordData c1 (clock w + 60 * 60 * 1000) a)) = false).
  { intros t. destruct (resetCodeMatches _ _ _ _) eqn:Hmatch; [|done].
    apply (resetCodeMatches_spec (mkResetPasswordOpts k c1 pw)) in Hmatch
      as [Hc _]. simpl in Hc. congruence. }
  rewrite Hno. by eexists.
Qed.

End ResetLink.

(** ** The account service as a whole *)

Section AccountService.

Import UserManagement.
Variable env : Env.

Lemma deleteAccount_cases (u : string) (bot : option bool) (w : World) :
  (∃ err, deleteAccount env u bot w = (Returned (None, Some err), w)) ∨
  ∃ usr,
    users (db w) !! u = Some usr ∧
    deleteAccount env u bot w =
    (Returned (Some true, None),
     setSockets
       (filter (λ s, broadcaster u None s = false) (sockets w))
       (emitted w ++
          ((λ s, mkEmitted (sid s) (AUTHENTICATE_ERROR env)
                   (PayloadText "Invalid Token"))
             <$> filter (λ s, broadcaster u None s = true) (sockets w)))
       (setUserCache (userCache w ∖ list_to_set [u])
          (setDb
             (mkDatabase
                (delete u (accounts (db w)))
                (<[u := deletedUserData bot (randomTag env (entropy w)) usr]>
                   (users (db w)))
                (filter (λ f, (bool_decide (followedById f = u)
                               || bool_decide (followedToId f = u)) = false)
                   (followers (db w)))
                (Prisma.deleteManyOwned u (userProfiles (db w)))
                (Prisma.deleteManyOwned u (serverChannelLastSeen (db w)))
                (Prisma.deleteManyOwned u (userDevices (db w)))
                (Prisma.deleteManyOwned u (userConnections (db w)))
                (Prisma.deleteManyOwned u (chatNotices (db w)))
                (Prisma.deleteManyOwned u (userNotices (db w)))
                (messages (db w)))
             (setEntropy (S (entropy w)) w)))).
Proof.
  destruct (users (db w) !! u) as [usr|] eqn:Hu.
  - destruct (JS.truthyFlag bot) eqn:Hb.
    + right. exists usr. split; [done|].
      unfold deleteAccount. unfold mbind at 1, IO_bind, getWorld.
      rewrite Hu. cbv zeta. rewrite Hb. cbn [negb]. cbv iota.
      unfold mbind at 1, IO_bind.
      rewrite (deleteAccountFromDatabase_run env u bot usr w Hu). reflexivity.
    + destruct (negb (length (servers usr) =? 0)%nat) eqn:Hs.
      { left. eexists. unfold deleteAccount.
        unfold mbind at 1, IO_bind, getWorld.
        rewrite Hu. cbv zeta. rewrite Hb, Hs. reflexivity. }
      destruct (match accounts (db w) !! u with
                | Some a => negb (length (applications a) =? 0)%nat
                | None => false end) eqn:Happ.
      { left. eexists. unfold deleteAccount.
        unfold mbind at 1, IO_bind, getWorld.
        rewrite Hu. cbv zeta. rewrite Hb, Hs, Happ. reflexivity. }
      right. exists usr. split; [done|].
      unfold deleteAccount. unfold mbind at 1, IO_bind, getWorld.
      rewrite Hu. cbv zeta. rewrite Hb, Hs, Happ. cbn [negb]. cbv iota.
      unfold mbind at 1, IO_bind.
      rewrite (deleteAccountFromDatabase_run env u bot usr w Hu). reflexivity.
  - left. unfold deleteAccount. io_unfold. rewrite Hu. by eexists.
Qed.

(** X5: the services do not throw and settle every call.
    [sendEmailConfirmCode], [sendResetPasswordCode], [verifyEmailConfirmCode]
    and [deleteAccount] return a pair with exactly one side populated, and a
    call that returns an error has changed nothing.  [resetPassword] returns
    either an error, having changed nothing, or no error and the token
    generated for the incremented password version, so that both sides are
    empty exactly when no token was generated. *)
Theorem services_settle (w : World) :
  (∀ u, ∃ r w',
     sendEmailConfirmCode env u w = (Returned r, w') ∧
     Api.oneSided r ∧ (is_Some r.2 → w' = w)) ∧
  (∀ mail, ∃ r w',
     sendResetPasswordCode env mail w = (Returned r, w') ∧
     Api.oneSided r ∧ (is_Some r.2 → w' = w)) ∧
  (∀ u c, ∃ r w',
     verifyEmailConfirmCode env u c w = (Returned r, w') ∧
     Api.oneSided r ∧ (is_Some r.2 → w' = w)) ∧
  (∀ u bot, ∃ r w',
     deleteAccount env u bot w = (Returned r, w') ∧
     Api.oneSided r ∧ (is_Some r.2 → w' = w)) ∧
  (∀ opts, ∃ r w',
     resetPassword env opts w = (Returned r, w') ∧
     (is_Some r.2 → r.1 = None ∧ w' = w) ∧
     (r.2 = None →
        ∃ a, accounts (db w) !! userId opts = Some a ∧
             r.1 = generateToken env (userId opts) (passwordVersion a + 1))).
Proof.
  assert (Herr : ∀ (A : Type) (e : ApiError),
            @Api.oneSided A (None, Some e)).
  { intros A e. right. split; [done|by eexists]. }
  assert (Hok : ∀ (A : Type) (x : A), @Api.oneSided A (Some x, None)).
  { intros A x. left. split; [by eexists|done]. }
  split; [|split; [|split; [|split]]].
  - intros u. rewrite sendEmailConfirmCode_run.
    destruct (accounts (db w) !! u) as [a|]; [|by eexists _, _].
    destruct (emailConfirmed a); [by eexists _, _|]. cbv zeta.
    destruct (DEV_MODE env); eexists _, _;
      (split; [reflexivity|]); (split; [apply Hok|]); by intros [? [=]].
  - intros mail.
    destruct (sendResetPasswordCode_cases env mail w)
      as [[Hrun _]|(k & a & _ & _ & Hrun)].
    + rewrite Hrun. by eexists _, _.
    + cbv zeta in Hrun. rewrite Hrun.
      destruct (DEV_MODE env); eexists _, _;
        (split; [reflexivity|]); (split; [apply Hok|]); by intros [? [=]].
  - intros u c. rewrite verifyEmailConfirmCode_run.
    destruct (accounts (db w) !! u) as [a|]; [|by eexists _, _].
    destruct (emailConfirmed a); [by eexists _, _|].
    destruct (negb _); [by eexists _, _|].
    destruct (bool_decide _); [by eexists _, _|].
    eexists _, _. split; [reflexivity|]. split; [apply Hok|]. by intros [? [=]].
  - intros u bot.
    destruct (deleteAccount_cases u bot w) as [[err Hrun]|(usr & _ & Hrun)];
      rewrite Hrun.
    + by eexists _, _.
    + eexists _, _. split; [reflexivity|]. split; [apply Hok|].
      by intros [? [=]].
  - intros opts. rewrite resetPassword_run.
    destruct (negb (JS.truthy (code opts)));
      [eexists _, _; split; [reflexivity|]; split; [done|intros [=]]|].
    destruct (negb (JS.truthy (newPassword opts)));
      [eexists _, _; split; [reflexivity|]; split; [done|intros [=]]|].
    destruct (negb (JS.truthy (userId opts)));
      [eexists _, _; split; [reflexivity|]; split; [done|intros [=]]|].
    destruct (accounts (db w) !! userId opts) as [a|];
      [|eexists _, _; split; [reflexivity|]; split; [done|intros [=]]].
    destruct (resetCodeMatches _ _ _ _);
      [|eexists _, _; split; [reflexivity|]; split; [done|intros [=]]].
    cbv zeta. eexists _, _. split; [reflexivity|]. split.
    + by intros [? [=]].
    + intros _. by exists a.
Qed.

(** X6: calls for a user that is not there.  Without an account row for the
    user id, [sendEmailConfirmCode] and [verifyEmailConfirmCode] fail with
    'Invalid userId.' and [resetPassword], given non-empty arguments, with
    'Invalid or expired code.'; without a user row [deleteAccount] fails
    with 'Invalid userId.', bot flag or not.  None of them changes
    anything. *)
Theorem unknown_user_rejected (u : string) (w : World) :
  (accounts (db w) !! u = None →
     sendEmailConfirmCode env u w =
       (Returned (None, Some (generateError "Invalid userId.")), w) ∧
     (∀ c, verifyEmailConfirmCode env u c w =
        (Returned (None, Some (generateError "Invalid userId.")), w)) ∧
     (∀ c pw, c ≠ "" → pw ≠ "" → u ≠ "" →
        resetPassword env (mkResetPasswordOpts u c pw) w =
          (Returned (None, Some (generateError "Invalid or expired code.")),
           w))) ∧
  (users (db w) !! u = None →
     ∀ bot, deleteAccount env u bot w =
       (Returned (None, Some (generateError "Invalid userId.")), w)).
Proof.
  split.
  - intros Ha. split; [|split].
    + by rewrite sendEmailConfirmCode_run, Ha.
    + intros c. by rewrite verifyEmailConfirmCode_run, Ha.
    + intros c pw Hc Hpw Hu.
      destruct (resetPassword_guards_pass (mkResetPasswordOpts u c pw)
                  Hc Hpw Hu) as (G1 & G2 & G3).
      rewrite resetPassword_run, G1, G2, G3. simpl userId. by rewrite Ha.
  - intros Hu bot. unfold deleteAccount. io_unfold. by rewrite Hu.
Qed.

Lemma accountEvolves_refl (a : Account) : Api.accountEvolves a a.
Proof. unfold Api.accountEvolves. repeat split; auto. lia. Qed.

Lemma accountEvolves_trans (a b c : Account) :
  Api.accountEvolves a b → Api.accountEvolves b c → Api.accountEvolves a c.
Proof.
  intros (E1 & A1 & V1 & P1 & C1) (E2 & A2 & V2 & P2 & C2).
  unfold Api.accountEvolves. split; [congruence|]. split; [congruence|].
  split; [lia|]. split; [|auto].
  intros Hv. rewrite P2 by lia. apply P1. lia.
Qed.

Lemma exec_accounts (c : Api.Call) (w : World) :
  accounts (db (Api.exec env c w)) = accounts (db w) ∨
  (∃ k a a',
     accounts (db w) !! k = Some a ∧ Api.accountEvolves a a' ∧
     accounts (db (Api.exec env c w)) = <[k := a']> (accounts (db w))) ∨
  (∃ k, accounts (db (Api.exec env c w)) = delete k (accounts (db w))).
Proof.
  assert (Hev : ∀ a a',
    email a' = email a → applications a' = applications a →
    emailConfirmed a' = emailConfirmed a ∨ emailConfirmed a' = true →
    (password a' = password a ∧ passwordVersion a' = passwordVersion a) ∨
    passwordVersion a' = passwordVersion a + 1 →
    Api.accountEvolves a a').
  { intros a a' He Ha Hc Hp. unfold Api.accountEvolves.
    split; [done|]. split; [done|].
    split; [destruct Hp as [[_ ->]| ->]; lia|].
    split; [destruct Hp as [[-> _]| ->]; [done|lia]|].
    destruct Hc as [-> | ->]; done. }
  destruct c as [u|mail|u c|u bot|u x|opts|ms]; simpl.
  - rewrite sendEmailConfirmCode_run.
    destruct (accounts (db w) !! u) as [a|] eqn:Ha; [|by left].
    destruct (emailConfirmed a); [by left|]. cbv zeta.
    right; left. exists u, a. eexists. split; [done|].
    split; [|destruct (DEV_MODE env); reflexivity].
    apply Hev; simpl; auto.
  - destruct (sendResetPasswordCode_cases env mail w)
      as [[-> _]|(k & a & Ha & _ & ->)]; [by left|]. cbv zeta.
    right; left. exists k, a. eexists. split; [done|].
    split; [|destruct (DEV_MODE env); reflexivity].
    apply Hev; simpl; auto.
  - rewrite verifyEmailConfirmCode_run.
    destruct (accounts (db w) !! u) as [a|] eqn:Ha; [|by left].
    destruct (emailConfirmed a); [by left|].
    destruct (negb _); [by left|].
    destruct (bool_decide _); [by left|].
    right; left. exists u, a. eexists. split; [done|].
    split; [|reflexivity]. apply Hev; simpl; auto.
  - destruct (deleteAccount_cases u bot w) as [[err ->]|(usr & _ & ->)];
      [by left|].
    right; right. by exists u.
  - by left.
  - rewrite resetPassword_run.
    destruct (negb (JS.truthy (code opts))); [by left|].
    destruct (negb (JS.truthy (newPassword opts))); [by left|].
    destruct (negb (JS.truthy (userId opts))); [by left|].
    destruct (accounts (db w) !! userId opts) as [a|] eqn:Ha; [|by left].
    destruct (resetCodeMatches _ _ _ _); [|by left]. cbv zeta.
    right; left. exists (userId opts), a. eexists. split; [done|].
    split; [|destruct (JS.truthyOpt _); reflexivity].
    apply Hev; simpl; auto.
  - by left.
Qed.

Lemma exec_account_step (c : Api.Call) (w : World) (v : string) :
  (∀ a a', accounts (db w) !! v = Some a →
           accounts (db (Api.exec env c w)) !! v = Some a' →
           Api.accountEvolves a a') ∧
  (accounts (db w) !! v = None →
   accounts (db (Api.exec env c w)) !! v = None).
Proof.
  destruct (exec_accounts c w) as [-> | [(k & b & b' & Hk & Hev & ->) | [k ->]]].
  - split; [|done]. intros a a' Ha. rewrite Ha. intros [= <-].
    apply accountEvolves_refl.
  - destruct (decide (k = v)) as [->|Hne].
    + rewrite lookup_insert_eq. split; [|congruence].
      intros a a' Ha [= <-]. congruence.
    + rewrite lookup_insert_ne by done. split; [|done].
      intros a a' Ha. rewrite Ha. intros [= <-]. apply accountEvolves_refl.
  - destruct (decide (k = v)) as [->|Hne].
    + rewrite lookup_delete_eq. split; [|done]. intros a a' _ [=].
    + rewrite lookup_delete_ne by done. split; [|done].
      intros a a' Ha. rewrite Ha. intros [= <-]. apply accountEvolves_refl.
Qed.

(** X7: what a history of calls can do to an account.  Over any sequence of
    calls of the account service, with time passing in between, an account
    row that is still there has the same address and applications, a
    password version that has not gone down, the same password unless the
    password version went up (so every password change retires the tokens
    issued before it) and, once its address was confirmed, a confirmed
    address; and a user id without an account row never gets one. *)
Theorem account_history (calls : list Api.Call) (w : World) (v : string) :
  (∀ a a', accounts (db w) !! v = Some a →
           accounts (db (Api.run env calls w)) !! v = Some a' →
           Api.accountEvolves a a') ∧
  (accounts (db w) !! v = None →
   accounts (db (Api.run env calls w)) !! v = None).
Proof.
  revert w. induction calls as [|c calls IH]; intros w.
  - simpl. split; [|done]. intros a a' Ha. rewrite Ha. intros [= <-].
    apply accountEvolves_refl.
  - change (Api.run env (c :: calls) w)
      with (Api.run env calls (Api.exec env c w)).
    destruct (exec_account_step c w v) as [Hstep Hnone].
    destruct (IH (Api.exec env c w)) as [IHsome IHnone].
    split.
    + intros a a' Ha Ha'.
      destruct (accounts (db (Api.exec env c w)) !! v) as [b|] eqn:Hb.
      * apply (accountEvolves_trans a b a'); [by apply Hstep|by apply IHsome].
      * rewrite (IHnone eq_refl) in Ha'. discriminate Ha'.
    + intros Ha. apply IHnone, Hnone, Ha.
Qed.

Lemma onlyRetires_refl (w : World) : Api.onlyRetires w w.
Proof.
  unfold Api.onlyRetires. do 11 (split; [done|]).
  split; [exists []; by rewrite app_nil_r|].
  split; [exists []; by rewrite app_nil_r|].
  split; [done|]. split; lia.
Qed.

Lemma onlyRetires_trans (w1 w2 w3 : World) :
  Api.onlyRetires w1 w2 → Api.onlyRetires w2 w3 → Api.onlyRetires w1 w3.
Proof.
  intros (M1 & U1 & F1 & P1 & L1 & D1 & C1 & N1 & O1 & K1 & S1 & [e1 E1]
          & [m1 Ma1] & I1 & T1 & R1)
         (M2 & U2 & F2 & P2 & L2 & D2 & C2 & N2 & O2 & K2 & S2 & [e2 E2]
          & [m2 Ma2] & I2 & T2 & R2).
  unfold Api.onlyRetires.
  split; [congruence|]. split; [intros u; by rewrite U2|].
  do 9 (split; [auto|]).
  split; [exists (e1 ++ e2); by rewrite E2, E1, app_assoc|].
  split; [exists (m1 ++ m2); by rewrite Ma2, Ma1, app_assoc|].
  split; [congruence|]. split; lia.
Qed.

Lemma deleteManyOwned_subset (u : string) (l : list Owned) (r : Owned) :
  r ∈ Prisma.deleteManyOwned u l → r ∈ l.
Proof. intros H. by apply deleteManyOwned_spec in H as [H _]. Qed.

Lemma filter_subset {A} (P : A → Prop) `{∀ x, Decision (P x)} (l : list A) (x : A) :
  x ∈ filter P l → x ∈ l.
Proof. intros Hx. by apply list_elem_of_filter in Hx as [_ Hx]. Qed.

Lemma exec_onlyRetires (c : Api.Call) (w : World) :
  Api.onlyRetires w (Api.exec env c w).
Proof.
  assert (Hself : ∀ A (l : list A), ∃ e, l = l ++ e).
  { intros A l. exists []. by rewrite app_nil_r. }
  assert (Hmore : ∀ A (l e : list A), ∃ e', l ++ e = l ++ e').
  { intros A l e. by exists e. }
  assert (Hcache : ∀ (c r : gset string) u, u ∈ c ∖ r → u ∈ c).
  { intros c0 r u Hu. by apply elem_of_difference in Hu as [Hu _]. }
  assert (Husers : ∀ u usr usr' v,
            users (db w) !! u = Some usr →
            is_Some (<[u := usr']> (users (db w)) !! v)
            ↔ is_Some (users (db w) !! v)).
  { intros u usr usr' v Hu. destruct (decide (u = v)) as [<-|Hne].
    - rewrite lookup_insert_eq, Hu. split; by eexists.
    - by rewrite lookup_insert_ne. }
  assert (Hsolve : ∀ w', 
    messages (db w') = messages (db w) →
    (∀ u, is_Some (users (db w') !! u) ↔ is_Some (users (db w) !! u)) →
    (∀ f, f ∈ followers (db w') → f ∈ followers (db w)) →
    (∀ r, r ∈ userProfiles (db w') → r ∈ userProfiles (db w)) →
    (∀ r, r ∈ serverChannelLastSeen (db w') → r ∈ serverChannelLastSeen (db w)) →
    (∀ r, r ∈ userDevices (db w') → r ∈ userDevices (db w)) →
    (∀ r, r ∈ userConnections (db w') → r ∈ userConnections (db w)) →
    (∀ r, r ∈ chatNotices (db w') → r ∈ chatNotices (db w)) →
    (∀ r, r ∈ userNotices (db w') → r ∈ userNotices (db w)) →
    (∀ u, u ∈ userCache w' → u ∈ userCache w) →
    (∀ s, s ∈ sockets w' → s ∈ sockets w) →
    (∃ e, emitted w' = emitted w ++ e) →
    (∃ m, mails w' = mails w ++ m) →
    cdnCalls w' = cdnCalls w →
    clock w ≤ clock w' →
    (entropy w ≤ entropy w')%nat →
    Api.onlyRetires w w').
  { intros w' ????????????????. unfold Api.onlyRetires.
    do 15 (split; [assumption|]). assumption. }
  destruct c as [u|mail|u c|u bot|u x|opts|ms]; simpl.
  - rewrite sendEmailConfirmCode_run.
    destruct (accounts (db w) !! u) as [a|]; [|apply onlyRetires_refl].
    destruct (emailConfirmed a); [apply onlyRetires_refl|]. cbv zeta.
    destruct (DEV_MODE env); apply Hsolve; simpl;
      first [done | lia | apply Hself | apply Hmore].
  - destruct (sendResetPasswordCode_cases env mail w)
      as [[-> _]|(k & a & _ & _ & ->)]; [apply onlyRetires_refl|]. cbv zeta.
    destruct (DEV_MODE env); apply Hsolve; simpl;
      first [done | lia | apply Hself | apply Hmore].
  - rewrite verifyEmailConfirmCode_run.
    destruct (accounts (db w) !! u) as [a|]; [|apply onlyRetires_refl].
    destruct (emailConfirmed a); [apply onlyRetires_refl|].
    destruct (negb _); [apply onlyRetires_refl|].
    destruct (bool_decide _); [apply onlyRetires_refl|].
    apply Hsolve; simpl;
      first [done | lia | apply Hself | apply Hmore | apply Hcache].
  - destruct (deleteAccount_cases u bot w) as [[err ->]|(usr & Hu & ->)];
      [apply onlyRetires_refl|].
    apply Hsolve; simpl;
      first [done | lia | apply Hself | apply Hmore | apply Hcache
            | apply filter_subset | apply deleteManyOwned_subset
            | intros v; by apply (Husers u usr)].
  - apply Hsolve; simpl;
      first [done | lia | apply Hself | apply Hmore | apply filter_subset].
  - rewrite resetPassword_run.
    destruct (negb (JS.truthy (code opts))); [apply onlyRetires_refl|].
    destruct (negb (JS.truthy (newPassword opts))); [apply onlyRetires_refl|].
    destruct (negb (JS.truthy (userId opts))); [apply onlyRetires_refl|].
    destruct (accounts (db w) !! userId opts) as [a|];
      [|apply onlyRetires_refl].
    destruct (resetCodeMatches _ _ _ _); [|apply onlyRetires_refl]. cbv zeta.
    destruct (JS.truthyOpt _); apply Hsolve; simpl;
      first [done | lia | apply Hself | apply Hmore | apply Hcache
            | apply filter_subset].
  - apply Hsolve; simpl; first [done | lia | apply Hself].
Qed.

(** X8: what the account service leaves alone.  Over any sequence of calls
    of the account service, with time passing in between, the message rows
    are untouched and the same user ids have a user row; follow, profile,
    read-state, device, connection and notice rows, cache entries and
    connected sockets are only ever removed; emitted events and outgoing
    mails are only appended to; the image store is never called; the clock
    and the draw counter do not go back. *)
Theorem service_only_retires (calls : list Api.Call) (w : World) :
  Api.onlyRetires w (Api.run env calls w).
Proof.
  revert w. induction calls as [|c calls IH]; intros w.
  - apply onlyRetires_refl.
  - change (Api.run env (c :: calls) w)
      with (Api.run env calls (Api.exec env c w)).
    apply (onlyRetires_trans w (Api.exec env c w));
      [apply exec_onlyRetires|apply IH].
Qed.

Lemma run_account_none (calls : list Api.Call) (w : World) (v : string) :
  accounts (db w) !! v = None →
  accounts (db (Api.run env calls w)) !! v = None.
Proof.
  revert w. induction calls as [|c calls IH]; intros w Hv; [done|].
  change (Api.run env (c :: calls) w)
    with (Api.run env calls (Api.exec env c w)).
  apply IH. by apply exec_account_step.
Qed.

Lemma exec_users (c : Api.Call) (w : World) :
  users (db (Api.exec env c w)) = users (db w) ∨
  ∃ k usr bot tag,
    users (db w) !! k = Some usr ∧
    users (db (Api.exec env c w)) =
      <[k := deletedUserData bot tag usr]> (users (db w)).
Proof.
  destruct c as [u|mail|u c|u bot|u x|opts|ms]; simpl.
  - rewrite sendEmailConfirmCode_run.
    destruct (accounts (db w) !! u) as [a|]; [|by left].
    destruct (emailConfirmed a); [by left|]. cbv zeta.
    by destruct (DEV_MODE env); left.
  - destruct (sendResetPasswordCode_cases env mail w)
      as [[-> _]|(k & a & _ & _ & ->)]; [by left|]. cbv zeta.
    by destruct (DEV_MODE env); left.
  - rewrite verifyEmailConfirmCode_run.
    destruct (accounts (db w) !! u) as [a|]; [|by left].
    destruct (emailConfirmed a); [by left|].
    destruct (negb _); [by left|].
    destruct (bool_decide _); by left.
  - destruct (deleteAccount_cases u bot w) as [[err ->]|(usr & Hu & ->)];
      [by left|].
    right. by exists u, usr, bot, (randomTag env (entropy w)).
  - by left.
  - rewrite resetPassword_run.
    destruct (negb (JS.truthy (code opts))); [by left|].
    destruct (negb (JS.truthy (newPassword opts))); [by left|].
    destruct (negb (JS.truthy (userId opts))); [by left|].
    destruct (accounts (db w) !! userId opts) as [a|]; [|by left].
    destruct (resetCodeMatches _ _ _ _); [|by left]. cbv zeta.
    by destruct (JS.truthyOpt _); left.
  - by left.
Qed.

Lemma deletedUserData_anonymized (bot : option bool) (tag : string) (usr : User) :
  Api.anonymized (deletedUserData bot tag usr).
Proof. unfold Api.anonymized. simpl. do 4 (split; [done|]). by eexists _, _. Qed.

Lemma run_anonymized (calls : list Api.Call) (w : World) (v : string) (usr : User) :
  users (db w) !! v = Some usr → Api.anonymized usr →
  ∃ usr', users (db (Api.run env calls w)) !! v = Some usr' ∧
          Api.anonymized usr'.
Proof.
  revert w usr. induction calls as [|c calls IH]; intros w usr Hv Han.
  { by exists usr. }
  change (Api.run env (c :: calls) w)
    with (Api.run env calls (Api.exec env c w)).
  destruct (exec_users c w) as [Hsame|(k & usr0 & bot & tag & Hk & Hnew)].
  - apply (IH _ usr); [by rewrite Hsame|done].
  - destruct (decide (k = v)) as [->|Hne].
    + apply (IH _ (deletedUserData bot tag usr0)).
      * rewrite Hnew. apply lookup_insert_eq.
      * apply deletedUserData_anonymized.
    + apply (IH _ usr); [|done]. by rewrite Hnew, lookup_insert_ne.
Qed.

(** X9: account deletion is final.  After a successful [deleteAccount] for a
    user and any further sequence of calls of the account service, the user
    has no account row, so [sendEmailConfirmCode] and
    [verifyEmailConfirmCode] for the user fail with 'Invalid userId.' and
    [resetPassword] for the user fails, all without changing anything; the
    user row is still there and still anonymized: a 'Deleted User <tag>' or
    'Deleted Bot <tag>' name, no avatar, banner or custom status, no
    badges. *)
Theorem deletion_is_final (u : string) (bot : option bool) (w w1 : World)
    (calls : list Api.Call) :
  deleteAccount env u bot w = (Returned (Some true, None), w1) →
  let w2 := Api.run env calls w1 in
  accounts (db w2) !! u = None ∧
  sendEmailConfirmCode env u w2 =
    (Returned (None, Some (generateError "Invalid userId.")), w2) ∧
  (∀ c, verifyEmailConfirmCode env u c w2 =
     (Returned (None, Some (generateError "Invalid userId.")), w2)) ∧
  (∀ c pw, ∃ err,
     resetPassword env (mkResetPasswordOpts u c pw) w2 =
       (Returned (None, Some err), w2)) ∧
  (∃ usr, users (db w2) !! u = Some usr ∧ Api.anonymized usr).
Proof.
  intros Hdel w2.
  destruct (deleteAccount_cases u bot w) as [[err Hrun]|(usr & Hu & Hrun)];
    rewrite Hrun in Hdel; [discriminate Hdel|].
  injection Hdel as Hw1.
  assert (Hacc : accounts (db w2) !! u = None).
  { apply run_account_none. rewrite <- Hw1. simpl. apply lookup_delete_eq. }
  split; [done|]. split; [|split; [|split]].
  - by rewrite sendEmailConfirmCode_run, Hacc.
  - intros c. by rewrite verifyEmailConfirmCode_run, Hacc.
  - intros c pw. rewrite resetPassword_run.
    destruct (negb (JS.truthy _)); [by eexists|].
    destruct (negb (JS.truthy _)); [by eexists|].
    destruct (negb (JS.truthy _)); [by eexists|].
    simpl userId. rewrite Hacc. by eexists.
  - apply (run_anonymized calls w1 u
             (deletedUserData bot (randomTag env (entropy w)) usr)).
    + rewrite <- Hw1. simpl. apply lookup_insert_eq.
    + apply deletedUserData_anonymized.
Qed.

Lemma insert_lookup_cases (m : gmap string Account) (k v : string)
    (a0 b a a' : Account) :
  m !! k = Some a0 → m !! v = Some a → <[k := b]> m !! v = Some a' →
  (a = a0 ∧ a' = b) ∨ a' = a.
Proof.
  intros Hk Hv. destruct (decide (k = v)) as [->|Hne].
  - rewrite lookup_insert_eq. intros [= <-]. left. split; congruence.
  - rewrite lookup_insert_ne by done. intros Hv'. right. congruence.
Qed.

(** X20: the two tracks of an account are independent.  A call of
    [sendEmailConfirmCode] or [verifyEmailConfirmCode] leaves the password,
    the password version, the reset code and its expiry of every account as
    they were; a call of [sendResetPasswordCode] or [resetPassword] leaves
    the confirmation flag and the confirmation code of every account as
    they were; [deleteAccount], [disconnectSockets] and the passing of time
    change no account row that remains. *)
Theorem tracks_independent (c : Api.Call) (w : World) (v : string)
    (a a' : Account) :
  accounts (db w) !! v = Some a →
  accounts (db (Api.exec env c w)) !! v = Some a' →
  match c with
  | Api.SendEmailConfirmCode _ | Api.VerifyEmailConfirmCode _ _ =>
      password a' = password a ∧
      passwordVersion a' = passwordVersion a ∧
      resetPasswordCode a' = resetPasswordCode a ∧
      resetPasswordCodeExpiresAt a' = resetPasswordCodeExpiresAt a
  | Api.SendResetPasswordCode _ | Api.ResetPassword _ =>
      emailConfirmed a' = emailConfirmed a ∧
      emailConfirmCode a' = emailConfirmCode a
  | Api.DeleteAccount _ _ | Api.DisconnectSockets _ _ | Api.Wait _ => a' = a
  end.
Proof.
  intros Hv. destruct c as [u|mail|u c|u bot|u x|opts|ms]; simpl.
  - rewrite sendEmailConfirmCode_run.
    destruct (accounts (db w) !! u) as [a0|] eqn:Ha;
      [|simpl; rewrite Hv; by intros [= <-]].
    destruct (emailConfirmed a0); [simpl; rewrite Hv; by intros [= <-]|]. cbv zeta.
    assert (H : ∀ b, <[u := confirmCodeData b a0]> (accounts (db w)) !! v
                     = Some a' →
                password a' = password a ∧
                passwordVersion a' = passwordVersion a ∧
                resetPasswordCode a' = resetPasswordCode a ∧
                resetPasswordCodeExpiresAt a' = resetPasswordCodeExpiresAt a).
    { intros b Hb.
      destruct (insert_lookup_cases _ _ _ _ _ _ _ Ha Hv Hb) as [[-> ->]| ->];
        done. }
    destruct (DEV_MODE env); apply H.
  - destruct (sendResetPasswordCode_cases env mail w)
      as [[-> _]|(k & a0 & Ha & _ & ->)]; [simpl; rewrite Hv; by intros [= <-]|].
    cbv zeta.
    assert (H : ∀ b e, <[k := forgotPasswordData b e a0]> (accounts (db w)) !! v
                       = Some a' →
                emailConfirmed a' = emailConfirmed a ∧
                emailConfirmCode a' = emailConfirmCode a).
    { intros b e Hb.
      destruct (insert_lookup_cases _ _ _ _ _ _ _ Ha Hv Hb) as [[-> ->]| ->];
        done. }
    destruct (DEV_MODE env); apply H.
  - rewrite verifyEmailConfirmCode_run.
    destruct (accounts (db w) !! u) as [a0|] eqn:Ha;
      [|simpl; rewrite Hv; by intros [= <-]].
    destruct (emailConfirmed a0); [simpl; rewrite Hv; by intros [= <-]|].
    destruct (negb _); [simpl; rewrite Hv; by intros [= <-]|].
    destruct (bool_decide _); [simpl; rewrite Hv; by intros [= <-]|].
    simpl. intros Hb.
    destruct (insert_lookup_cases _ _ _ _ _ _ _ Ha Hv Hb) as [[-> ->]| ->];
      done.
  - destruct (deleteAccount_cases u bot w) as [[err ->]|(usr & _ & ->)];
      [simpl; rewrite Hv; by intros [= <-]|].
    simpl. destruct (decide (u = v)) as [->|Hne].
    + by rewrite lookup_delete_eq.
    + rewrite lookup_delete_ne, Hv by done. by intros [= <-].
  - simpl. rewrite Hv. by intros [= <-].
  - rewrite resetPassword_run.
    destruct (negb (JS.truthy (code opts))); [simpl; rewrite Hv; by intros [= <-]|].
    destruct (negb (JS.truthy (newPassword opts)));
      [simpl; rewrite Hv; by intros [= <-]|].
    destruct (negb (JS.truthy (userId opts))); [simpl; rewrite Hv; by intros [= <-]|].
    destruct (accounts (db w) !! userId opts) as [a0|] eqn:Ha;
      [|simpl; rewrite Hv; by intros [= <-]].
    destruct (resetCodeMatches _ _ _ _); [|simpl; rewrite Hv; by intros [= <-]].
    cbv zeta.
    assert (H : ∀ h, <[userId opts := resetPasswordData h a0]>
                       (accounts (db w)) !! v = Some a' →
                emailConfirmed a' = emailConfirmed a ∧
                emailConfirmCode a' = emailConfirmCode a).
    { intros h Hb.
      destruct (insert_lookup_cases _ _ _ _ _ _ _ Ha Hv Hb) as [[-> ->]| ->];
        done. }
    destruct (JS.truthyOpt _); apply H.
  - simpl. rewrite Hv. by intros [= <-].
Qed.

End AccountService.

(** ** Forced disconnection *)

Section Sockets.

Import UserManagement.
Variable env : Env.

Lemma broadcaster_spec (u : string) (x : option string) (s : Socket) :
  broadcaster u x s = true ↔
  inRoom u s = true ∧ ∀ e, x = Some e → e ≠ "" → inRoom e s = false.
Proof.
  unfold broadcaster. rewrite andb_true_iff.
  destruct x as [e|].
  - destruct e as [|c e]; simpl.
    + split; [intros [H _]; split; [done|]|intros [H _]; done].
      intros e' [= <-] Hne. done.
    + rewrite negb_true_iff. split.
      * intros [H1 H2]. split; [done|]. by intros e' [= <-] _.
      * intros [H1 H2]. split; [done|]. by apply H2.
  - split; [intros [H _]; split; [done|]; intros e [=]|intros [H _]; done].
Qed.

Lemma filter_filter_same {A} (P : A → Prop) `{∀ x, Decision (P x)} (l : list A) :
  filter P (filter P l) = filter P l.
Proof.
  induction l as [|a l IH]; [done|]. rewrite filter_cons.
  destruct (decide (P a)) as [Ha|Ha]; [|done].
  rewrite filter_cons. destruct (decide (P a)); [|done]. by rewrite IH.
Qed.

Lemma filter_filter_opposite {A} (f : A → bool) (l : list A) :
  filter (λ x, f x = true) (filter (λ x, f x = false) l) = [].
Proof.
  induction l as [|a l IH]; [done|]. rewrite filter_cons.
  destruct (decide (f a = false)) as [Ha|Ha]; [|done].
  rewrite filter_cons. destruct (decide (f a = true)); [congruence|done].
Qed.

(** X10: whom [disconnectSockets] disconnects.  The call never fails.  The
    sockets it removes are exactly those in the user's room that are not in
    the room of a non-empty [excludeSocketId]; every other socket keeps its
    connection, in particular the excluded one and those of other users.
    Each removed socket, and nobody else, is sent the authentication error
    with the message 'Invalid Token'.  The store, the cache and the mails
    are untouched. *)
Theorem disconnectSockets_spec (u : string) (x : option string) (w : World) :
  ∃ w',
    disconnectSockets env u x w = (Returned (), w') ∧
    (∀ s, s ∈ sockets w' ↔
          s ∈ sockets w ∧
          ¬ (inRoom u s = true ∧
             ∀ e, x = Some e → e ≠ "" → inRoom e s = false)) ∧
    (∀ ev, ev ∈ emitted w' ↔
           ev ∈ emitted w ∨
           ∃ s, s ∈ sockets w ∧ (s ∉ sockets w') ∧
                ev = mkEmitted (sid s) (AUTHENTICATE_ERROR env)
                       (PayloadText "Invalid Token")) ∧
    (∀ e s, x = Some e → e ≠ "" → s ∈ sockets w → sid s = e →
            s ∈ sockets w') ∧
    db w' = db w ∧ userCache w' = userCache w ∧ mails w' = mails w.
Proof.
  eexists. split; [apply disconnectSockets_run|]. simpl.
  assert (Hkeep : ∀ s, s ∈ filter (λ s, broadcaster u x s = false) (sockets w)
            ↔ s ∈ sockets w ∧
              ¬ (inRoom u s = true ∧
                 ∀ e, x = Some e → e ≠ "" → inRoom e s = false)).
  { intros s. rewrite list_elem_of_filter, <- broadcaster_spec.
    destruct (broadcaster u x s); split; intros [H1 H2]; split;
      done || congruence. }
  split; [exact Hkeep|]. split; [|split; [|done]].
  - intros ev. rewrite elem_of_app, list_elem_of_fmap.
    split; intros [H|H]; [by left| |by left|].
    + right. destruct H as (s & -> & Hs).
      apply list_elem_of_filter in Hs as [Ht Hs].
      exists s. split; [done|]. split; [|done].
      intros Hin. apply list_elem_of_filter in Hin as [Hf _]. congruence.
    + right. destruct H as (s & Hs & Hout & ->).
      exists s. split; [done|]. apply list_elem_of_filter. split; [|done].
      destruct (broadcaster u x s) eqn:Hb; [done|]. exfalso. apply Hout.
      by apply list_elem_of_filter.
  - intros e s -> Hne Hs Hid. apply Hkeep. split; [done|].
    intros [_ Hex]. specialize (Hex e eq_refl Hne).
    unfold inRoom in Hex. rewrite bool_decide_eq_true_2 in Hex by done.
    discriminate Hex.
Qed.

(** X11: [disconnectSockets] is idempotent.  A second call with the same
    arguments, right after the first, finds nobody left to disconnect: it
    removes no socket, emits no event and leaves the state exactly as the
    first call left it. *)
Theorem disconnectSockets_idempotent (u : string) (x : option string) (w : World) :
  disconnectSockets env u x (disconnectSockets env u x w).2 =
  (Returned (), (disconnectSockets env u x w).2).
Proof.
  rewrite !disconnectSockets_run. simpl. unfold setSockets. simpl.
  rewrite filter_filter_same, filter_filter_opposite. simpl.
  by rewrite app_nil_r.
Qed.

End Sockets.

(** ** Outcomes of the message route *)

Section RouteOutcomes.

Import ChannelMessageCreate.
Variable env : Env.

Lemma route_not_admitted (req : Request) (w : World) :
  ¬ (customExpressValidatorResult req = None ∧
     (∀ i, inbox (channelCache req) = Some i → canMessage i = true) ∧
     type (channelCache req) ∈ TextChannelTypes) →
  ∃ msg, route env req w = (Returned (errorResponse 400 msg), w).
Proof.
  intros Hno. unfold route.
  destruct (customExpressValidatorResult req) as [[msg]|] eqn:Hv;
    [by exists msg|].
  destruct (match inbox (channelCache req) with
            | Some i => negb (canMessage i) | None => false end) eqn:Hb;
    [by eexists|].
  destruct (bool_decide (type (channelCache req) ∈ TextChannelTypes)) eqn:Ht;
    [|by eexists].
  exfalso. apply Hno. split; [done|]. split.
  - intros i Hi. rewrite Hi in Hb. by destruct (canMessage i).
  - by apply bool_decide_eq_true in Ht.
Qed.

Lemma send_run_message (req : Request) (att : option Attachment) (w : World) :
  ∃ w',
    send env req att w =
      (Returned (mkResponse 200 (JsonMessage
         (mkMessage (id (channelCache req)) (server (channelCache req))
            (accountUserId req) (content req) att CONTENT (socketId req)
            (clock w)))), w') ∧
    messages (db w') = messages (db w) ++
      [mkMessage (id (channelCache req)) (server (channelCache req))
         (accountUserId req) (content req) att CONTENT (socketId req)
         (clock w)] ∧
    accounts (db w') = accounts (db w) ∧ users (db w') = users (db w) ∧
    cdnCalls w' = cdnCalls w ∧ sockets w' = sockets w ∧
    userCache w' = userCache w ∧ mails w' = mails w.
Proof. eexists. split; [reflexivity|]. done. Qed.

Lemma route_admitted (req : Request) (w : World) :
  customExpressValidatorResult req = None →
  (∀ i, inbox (channelCache req) = Some i → canMessage i = true) →
  type (channelCache req) ∈ TextChannelTypes →
  (blankContent (content req) ∧ fileInfo req = None ∧
   route env req w =
     (Returned (errorResponse 400 "content or attachment is required."), w)) ∨
  (¬ blankContent (content req) ∧ fileInfo req = None ∧
   route env req w = send env req None w) ∨
  (∃ fi, fileInfo req = Some fi ∧ route env req w = ingest env req fi w).
Proof.
  intros Hv Hi Ht. rewrite (route_after_checks env req w Hv Hi Ht).
  apply validation_passes_content, validateContent_None in Hv.
  unfold mbind at 1, IO_bind, blankContent.
  destruct (fileInfo req) as [fi|] eqn:Hf.
  - right; right. exists fi. split; [done|].
    destruct Hv as [Hc|(s & Hc & _)]; rewrite Hc; unfold trimmedContent;
      io_unfold; cbv beta iota;
      rewrite bool_decide_eq_true_2 by eauto; by rewrite andb_false_r.
  - rewrite (bool_decide_eq_false_2 (is_Some None)) by (intros [? [=]]).
    destruct Hv as [Hc|(s & Hc & _)]; rewrite Hc; unfold trimmedContent;
      io_unfold; cbv beta iota.
    + left. split; [by left|]. done.
    + destruct (JS.trim s) as [|c t] eqn:Htrim; simpl.
      * left. split; [|done]. right. by exists s.
      * right; left. split; [|done].
        intros [[=]|(s' & [= <-] & Hs')]. congruence.
Qed.

Lemma ingest_cases (req : Request) (fi : FileInfo) (w : World) :
  let r := cdnUpload env (file fi) (filename fi) (id (channelCache req)) in
  let w1 := setCdnCalls
              (cdnCalls w ++ [(file fi, filename fi, id (channelCache req))]) w in
  (errTruthy r.2 = true ∧
   ∃ msg, ingest env req fi w = (Returned (errorResponse 403 msg), w1)) ∨
  (errTruthy r.2 = false ∧ r.1 = None ∧
   ingest env req fi w = (Thrown "TypeError", w1)) ∨
  (errTruthy r.2 = false ∧
   ∃ img, r.1 = Some img ∧
     ingest env req fi w =
       send env req (Some (mkAttachment (Some (imgWidth img))
                             (Some (imgHeight img)) (imgPath img))) w1).
Proof.
  intros r w1. rewrite ingest_run. fold r. fold w1.
  destruct (errTruthy r.2).
  - left. split; [done|]. by eexists.
  - destruct r.1 as [img|].
    + right; right. split; [done|]. by exists img.
    + right; left. done.
Qed.

Lemma admitted_dec (req : Request) :
  Decision (customExpressValidatorResult req = None ∧
            (∀ i, inbox (channelCache req) = Some i → canMessage i = true) ∧
            type (channelCache req) ∈ TextChannelTypes).
Proof.
  apply and_dec; [apply _|]. apply and_dec; [|apply _].
  destruct (inbox (channelCache req)) as [i|].
  - destruct (canMessage i) eqn:Hc.
    + left. by intros i' [= <-].
    + right. intros H. specialize (H i eq_refl). congruence.
  - left. intros i [=].
Qed.

(** X12: how a request to the message route can end.  Every request is
    answered with status 200 and a message, with status 400, or with status
    403, or it ends in a TypeError.  A 400 leaves the state exactly as it
    was.  A 403 and the TypeError only occur for a request with a file,
    after the one call to the image store, and that call is the only trace
    they leave: nothing is stored, emitted, mailed or dropped. *)
Theorem route_outcomes (req : Request) (w : World) :
  (∃ m, (route env req w).1 = Returned (mkResponse 200 (JsonMessage m))) ∨
  (∃ msg, route env req w = (Returned (errorResponse 400 msg), w)) ∨
  (∃ fi,
     fileInfo req = Some fi ∧
     ((∃ msg, (route env req w).1 = Returned (errorResponse 403 msg)) ∨
      (route env req w).1 = Thrown "TypeError") ∧
     (route env req w).2 =
       setCdnCalls
         (cdnCalls w ++ [(file fi, filename fi, id (channelCache req))]) w).
Proof.
  destruct (admitted_dec req) as [(Hv & Hi & Ht)|Hno].
  - destruct (route_admitted req w Hv Hi Ht)
      as [(_ & _ & ->)|[(_ & _ & ->)|(fi & Hf & ->)]].
    + right; left. by eexists.
    + left. destruct (send_run_message req None w) as (w' & -> & _).
      by eexists.
    + destruct (ingest_cases req fi w)
        as [[_ [msg ->]]|[(_ & _ & ->)|(_ & img & _ & ->)]].
      * right; right. exists fi. split; [done|]. split; [|done].
        left. by exists msg.
      * right; right. exists fi. split; [done|]. split; [|done]. by right.
      * left. destruct (send_run_message req
          (Some (mkAttachment (Some (imgWidth img)) (Some (imgHeight img))
                   (imgPath img)))
          (setCdnCalls (cdnCalls w ++
             [(file fi, filename fi, id (channelCache req))]) w))
          as (w' & -> & _).
        by eexists.
  - right; left. apply (route_not_admitted req w Hno).
Qed.

(** X13: when a message is created.  The route answers with status 200 if
    and only if the body passes validation, the recipient of a
    direct-message channel accepts messages, the channel is a text channel
    and either there is no file and the content does not trim to the empty
    string, or there is a file and the image store returns an image and no
    error.  With a file the content may be absent or blank. *)
Theorem route_success_iff (req : Request) (w : World) :
  (∃ m, (route env req w).1 = Returned (mkResponse 200 (JsonMessage m))) ↔
  customExpressValidatorResult req = None ∧
  (∀ i, inbox (channelCache req) = Some i → canMessage i = true) ∧
  type (channelCache req) ∈ TextChannelTypes ∧
  match fileInfo req with
  | None => ¬ blankContent (content req)
  | Some fi =>
      let r := cdnUpload env (file fi) (filename fi) (id (channelCache req)) in
      errTruthy r.2 = false ∧ is_Some r.1
  end.
Proof.
  destruct (admitted_dec req) as [(Hv & Hi & Ht)|Hno].
  - destruct (route_admitted req w Hv Hi Ht)
      as [(Hb & Hf & ->)|[(Hb & Hf & ->)|(fi & Hf & ->)]]; rewrite Hf.
    + split; [by intros [m [=]]|]. by intros (_ & _ & _ & Hnb).
    + destruct (send_run_message req None w) as (w' & -> & _).
      split; [done|]. intros _. by eexists.
    + destruct (ingest_cases req fi w)
        as [[He [msg ->]]|[(He & Hn & ->)|(He & img & Hn & ->)]].
      * split; [by intros [m [=]]|]. intros (_ & _ & _ & He' & _). congruence.
      * split; [by intros [m [=]]|].
        intros (_ & _ & _ & _ & [img Himg]). simpl in Himg. congruence.
      * destruct (send_run_message req
          (Some (mkAttachment (Some (imgWidth img)) (Some (imgHeight img))
                   (imgPath img)))
          (setCdnCalls (cdnCalls w ++
             [(file fi, filename fi, id (channelCache req))]) w))
          as (w' & -> & _).
        split; [|intros _; by eexists]. intros _.
        do 3 (split; [done|]). split; [done|]. by exists img.
  - destruct (route_not_admitted req w Hno) as [msg ->].
    split; [by intros [m [=]]|]. intros (Hv & Hi & Ht & _).
    by destruct Hno.
Qed.

(** X14: what the created message is.  When the route answers with status
    200 and a message, that message has the content of the body as it was
    sent (not trimmed), the caller as author, the channel and its server,
    the caller's socket id and the type CONTENT; it has no attachment when
    no file was sent and otherwise the path and dimensions the image store
    returned; and it is the one row appended to the messages, the accounts
    and users being untouched. *)
Theorem route_message (req : Request) (w : World) (m : Message) :
  (route env req w).1 = Returned (mkResponse 200 (JsonMessage m)) →
  msgContent m = content req ∧
  msgCreatedById m = accountUserId req ∧
  msgChannelId m = id (channelCache req) ∧
  msgServerId m = server (channelCache req) ∧
  msgSocketId m = socketId req ∧
  msgType m = CONTENT ∧
  match fileInfo req with
  | None => msgAttachment m = None
  | Some fi =>
      ∃ img,
        (cdnUpload env (file fi) (filename fi) (id (channelCache req))).1
          = Some img ∧
        msgAttachment m = Some (mkAttachment (Some (imgWidth img))
                                  (Some (imgHeight img)) (imgPath img))
  end ∧
  messages (db (route env req w).2) = messages (db w) ++ [m] ∧
  accounts (db (route env req w).2) = accounts (db w) ∧
  users (db (route env req w).2) = users (db w).
Proof.
  destruct (admitted_dec req) as [(Hv & Hi & Ht)|Hno].
  - destruct (route_admitted req w Hv Hi Ht)
      as [(Hb & Hf & ->)|[(Hb & Hf & ->)|(fi & Hf & ->)]]; rewrite Hf.
    + intros [=].
    + destruct (send_run_message req None w)
        as (w' & -> & Hm & Ha & Hu & _).
      intros [= <-]. simpl. rewrite Hm. done.
    + destruct (ingest_cases req fi w)
        as [[He [msg ->]]|[(He & Hn & ->)|(He & img & Hn & ->)]];
        [intros [=]|intros [=]|].
      destruct (send_run_message req
          (Some (mkAttachment (Some (imgWidth img)) (Some (imgHeight img))
                   (imgPath img)))
          (setCdnCalls (cdnCalls w ++
             [(file fi, filename fi, id (channelCache req))]) w))
          as (w' & -> & Hm & Ha & Hu & _).
      intros [= <-]. simpl. rewrite Hm. do 6 (split; [done|]).
      split; [by exists img|]. done.
  - destruct (route_not_admitted req w Hno) as [msg ->]. intros [=].
Qed.

(** X15: no message and no upload off a text channel.  On a channel whose
    type is not a text type every request is answered with status 400 and
    leaves the state as it was, whatever its content and even with a file:
    no message is created and the image store is not called.  When the body
    passes validation and no inbox blocks, the error is 'You cannot send
    messages in this channel.'. *)
Theorem non_text_channel_rejected (req : Request) (w : World) :
  type (channelCache req) ∉ TextChannelTypes →
  (∃ msg, route env req w = (Returned (errorResponse 400 msg), w)) ∧
  (customExpressValidatorResult req = None →
   (∀ i, inbox (channelCache req) = Some i → canMessage i = true) →
   route env req w =
     (Returned (errorResponse 400 "You cannot send messages in this channel."),
      w)).
Proof.
  intros Ht. split.
  - apply route_not_admitted. by intros (_ & _ & Hin).
  - intros Hv Hi. unfold route. rewrite Hv.
    destruct (inbox (channelCache req)) as [i|] eqn:Hib.
    + rewrite (Hi i eq_refl). simpl. by rewrite bool_decide_eq_false_2.
    + by rewrite bool_decide_eq_false_2.
Qed.

(** X16: which bodies pass validation.  The body validation reports no
    error exactly when the content is absent or a string of 1 to 2000
    characters and the socket id is absent or a string of 1 to 255
    characters.  When both fields are invalid the error reported is the
    content's, and a request rejected by validation is answered with status
    400 and that error, the state unchanged. *)
Theorem body_validation (req : Request) (w : World) :
  (customExpressValidatorResult req = None ↔
   (content req = JS.Undefined ∨
    ∃ s, content req = JS.Str s ∧ (1 ≤ String.length s ≤ 2000)%nat) ∧
   (socketId req = JS.Undefined ∨
    ∃ s, socketId req = JS.Str s ∧ (1 ≤ String.length s ≤ 255)%nat)) ∧
  (∀ msg, validateContent (content req) = Some msg →
     customExpressValidatorResult req = Some (generateError msg)) ∧
  (∀ e, customExpressValidatorResult req = Some e →
     route env req w = (Returned (mkResponse 400 (JsonError e)), w)).
Proof.
  assert (Hsock : validateSocketId (socketId req) = None ↔
            socketId req = JS.Undefined ∨
            ∃ s, socketId req = JS.Str s ∧ (1 ≤ String.length s ≤ 255)%nat).
  { unfold validateSocketId, validateChain.
    destruct (socketId req) as [| |s|].
    - split; [by left|done].
    - split; [done|]. intros [|(s & ? & _)]; done.
    - destruct (Nat.leb_spec 1 (String.length s)),
               (Nat.leb_spec (String.length s) 255); simpl.
      + split; [|done]. intros _. right. exists s. split; [done|lia].
      + split; [done|]. intros [|(s' & [= <-] & ?)]; [done|lia].
      + split; [done|]. intros [|(s' & [= <-] & ?)]; [done|lia].
      + split; [done|]. intros [|(s' & [= <-] & ?)]; [done|lia].
    - split; [done|]. intros [|(s & ? & _)]; done. }
  split; [|split].
  - rewrite <- validateContent_None, <- Hsock.
    unfold customExpressValidatorResult.
    destruct (validateContent (content req)).
    + split; [done|]. by intros [[=] _].
    + destruct (validateSocketId (socketId req)); simpl.
      * split; [done|]. by intros [_ [=]].
      * done.
  - intros msg Hc. unfold customExpressValidatorResult. by rewrite Hc.
  - intros e He. unfold route. by rewrite He.
Qed.

(** X17: calls to the image store.  A request makes at most one call to the
    image store, for the file, file name and channel id of the request, and
    makes it exactly when the body passes validation, no inbox blocks, the
    channel is a text channel and a file is attached, whether or not a
    message is created in the end. *)
Theorem image_store_calls (req : Request) (w : World) :
  (cdnCalls (route env req w).2 = cdnCalls w ∨
   ∃ fi, fileInfo req = Some fi ∧
         cdnCalls (route env req w).2 =
           cdnCalls w ++ [(file fi, filename fi, id (channelCache req))]) ∧
  (cdnCalls (route env req w).2 ≠ cdnCalls w ↔
   customExpressValidatorResult req = None ∧
   (∀ i, inbox (channelCache req) = Some i → canMessage i = true) ∧
   type (channelCache req) ∈ TextChannelTypes ∧
   is_Some (fileInfo req)).
Proof.
  split; [|apply upload_attempted].
  destruct (admitted_dec req) as [(Hv & Hi & Ht)|Hno].
  - destruct (route_admitted req w Hv Hi Ht)
      as [(_ & _ & ->)|[(_ & _ & ->)|(fi & Hf & ->)]].
    + by left.
    + left. by destruct (send_run_message req None w)
        as (w' & -> & _ & _ & _ & Hc & _).
    + right. exists fi. split; [done|].
      destruct (ingest_cases req fi w)
        as [[_ [msg ->]]|[(_ & _ & ->)|(_ & img & _ & ->)]]; [done|done|].
      by destruct (send_run_message req
          (Some (mkAttachment (Some (imgWidth img)) (Some (imgHeight img))
                   (imgPath img)))
          (setCdnCalls (cdnCalls w ++
             [(file fi, filename fi, id (channelCache req))]) w))
          as (w' & -> & _ & _ & _ & Hc & _).
  - left. by destruct (route_not_admitted req w Hno) as [msg ->].
Qed.

End RouteOutcomes.

(** ** The ticket list *)

Section Tickets.

Import GetTickets.

(** X18: the page size of the ticket list.  The [take] handed to the store
    is never more than 30: it is 30 when the [limit] parameter is absent or
    empty, the parsed limit when that is an integer of at most 30 (a
    negative one included), 30 when it is larger, and not a number when the
    parameter does not start with an integer. *)
Theorem tickets_page_size (q : Query) :
  (∀ n, take (findManyArgs q) = Num n → n ≤ 30) ∧
  (JS.truthyOpt (limit q) = false → take (findManyArgs q) = Num 30) ∧
  (∀ s, limit q = Some s → s ≠ "" →
     take (findManyArgs q) =
       match parseInt s with
       | Num n => Num (Z.min n 30)
       | NaN => NaN
       end).
Proof.
  assert (Hcap : ∀ x, match x with
                      | Num z => if 30 <? z then Num 30 else x
                      | NaN => x
                      end =
                      match x with Num n => Num (Z.min n 30) | NaN => NaN end).
  { intros [|z]; [done|]. destruct (Z.ltb_spec 30 z); f_equal; lia. }
  unfold findManyArgs. simpl. rewrite Hcap. split; [|split].
  - intros n. destruct (parseInt _); [done|]. intros [= <-]. lia.
  - intros Hl. destruct (limit q) as [s|]; [|done].
    simpl in Hl. by rewrite Hl.
  - intros s -> Hs. destruct s; [done|]. done.
Qed.

(** X19: the cursor of the ticket list.  [skip] and [cursor] are handed to
    the store together or not at all, [skip] being 1 and the cursor the
    parsed [after] parameter.  They are present exactly when [after] parses
    to an integer other than zero, so an absent, empty or non-numeric
    [after], and [after=0], give the first page. *)
Theorem tickets_cursor (q : Query) :
  (skip (findManyArgs q) = Some 1 ∧
   ∃ s z, after q = Some s ∧ parseInt s = Num z ∧ z ≠ 0 ∧
          cursor (findManyArgs q) = Some (Num z)) ∨
  (skip (findManyArgs q) = None ∧ cursor (findManyArgs q) = None ∧
   ∀ s z, after q = Some s → parseInt s = Num z → z = 0).
Proof.
  unfold findManyArgs. simpl.
  destruct (after q) as [s|]; [|right; done].
  destruct s as [|c s]; simpl JS.truthy; cbv iota.
  { right. split; [done|]. split; [done|]. intros s z [= <-]. done. }
  destruct (parseInt (String c s)) as [|z] eqn:Hp; simpl.
  { right. split; [done|]. split; [done|]. intros s' z [= <-]. congruence. }
  destruct (Z.eqb_spec z 0) as [->|Hz]; simpl.
  - right. split; [done|]. split; [done|]. intros s' z [= <-]. congruence.
  - left. split; [done|]. by exists (String c s), z.
Qed.

End Tickets.

(** ** Further theorems at concrete inputs *)

Section MoreInstances.

Import UserManagement ChannelMessageCreate.

Ltac only_alice H :=
  change (accounts (db Sample.world))
    with ({[ "u1" := Sample.alice ]} : gmap string Account) in H;
  apply lookup_singleton_Some in H.

Lemma sendResetPasswordCode_spec_witness :
  sendResetPasswordCode (Sample.env false) "nobody@example.org" Sample.world =
  (Returned (None, Some (generateError "Invalid email.")), Sample.world).
Proof.
  destruct (sendResetPasswordCode_spec (Sample.env false) "nobody@example.org"
              Sample.world) as [Hnone _].
  apply Hnone. intros k a Hk.
  only_alice Hk. destruct Hk as [_ <-]. simpl. intros H. discriminate H.
Defined.

Lemma reset_link_valid_one_hour_witness :
  ∃ w2,
    resetPassword (Sample.env true)
      (mkResetPasswordOpts "u1" "secure-A" "new password") Sample.resetPending =
    (Returned (Some "token.u1", None), w2).
Proof.
  destruct (reset_link_valid_one_hour (Sample.env true) "alice@example.org"
              Sample.world Sample.resetRequested
              (mkInfo ("DEV MODE: Password reset link: "
                       +:+ "https://chat.example/reset-password?code=secure-A"
                       +:+ "&userId=u1")))
    as (k & a & Hk & _ & Hvalid).
  - vm_compute. reflexivity.
  - only_alice Hk. destruct Hk as [<- <-].
    destruct (Hvalid (1000 + 3600000) "new password") as [Hin _].
    + vm_compute. intros H. discriminate H.
    + intros H. discriminate H.
    + intros H. discriminate H.
    + destruct Hin as (w2 & a2 & Hrun & _).
      * vm_compute. intros H. discriminate H.
      * exists w2. exact Hrun.
Defined.

Lemma reset_code_single_use_witness :
  let opts := mkResetPasswordOpts "u1" "secure-A" "new password" in
  let w1 := (resetPassword (Sample.env true) opts Sample.resetPending).2 in
  resetPassword (Sample.env true) opts w1 =
  (Returned (None, Some (generateError "Invalid or expired code.")), w1).
Proof.
  intros opts w1.
  apply (reset_code_single_use (Sample.env true) opts Sample.resetPending w1
           (Some "token.u1")).
  - vm_compute. reflexivity.
  - reflexivity.
Defined.

Lemma reset_link_superseded_witness :
  let w2 := (sendResetPasswordCode (Sample.env true) "alice@example.org"
               (sendResetPasswordCode (Sample.env true) "alice@example.org"
                  Sample.world).2).2 in
  ∃ err,
    resetPassword (Sample.env true)
      (mkResetPasswordOpts "u1" "secure-A" "new password") w2 =
    (Returned (None, Some err), w2).
Proof.
  intros w2.
  destruct (reset_link_superseded (Sample.env true) "alice@example.org" "u1"
              Sample.alice Sample.world) as [_ Hold].
  - vm_compute. reflexivity.
  - reflexivity.
  - intros k' a' Hk _. only_alice Hk. by destruct Hk as [<- _].
  - apply Hold; [|reflexivity]. vm_compute. intros H. discriminate H.
Defined.

Lemma unknown_user_rejected_witness :
  sendEmailConfirmCode (Sample.env false) "ghost" Sample.world =
  (Returned (None, Some (generateError "Invalid userId.")), Sample.world).
Proof.
  destruct (unknown_user_rejected (Sample.env false) "ghost" Sample.world)
    as [Hacc _].
  destruct Hacc as [Hsend _]; [|exact Hsend]. vm_compute. reflexivity.
Defined.

Lemma account_history_witness :
  let calls := [Api.SendResetPasswordCode "alice@example.org";
                Api.Wait 5000;
                Api.ResetPassword
                  (mkResetPasswordOpts "u1" "secure-A" "new password");
                Api.SendEmailConfirmCode "u1"] in
  let a' := mkAccount "alice@example.org" "bcrypt:new password" 4 false
              (Some "4711C") None None [] in
  accounts (db (Api.run (Sample.env true) calls Sample.world)) !! "u1"
    = Some a' ∧
  Api.accountEvolves Sample.alice a'.
Proof.
  intros calls a'.
  assert (Ha' : accounts (db (Api.run (Sample.env true) calls Sample.world))
                  !! "u1" = Some a').
  { vm_compute. reflexivity. }
  split; [exact Ha'|].
  destruct (account_history (Sample.env true) calls Sample.world "u1")
    as [Hevolves _].
  apply Hevolves; [|exact Ha']. vm_compute. reflexivity.
Defined.

Lemma tracks_independent_witness :
  let opts := mkResetPasswordOpts "u1" "secure-A" "new password" in
  let a' := resetPasswordData "bcrypt:new password" Sample.aliceResetting in
  emailConfirmed a' = emailConfirmed Sample.aliceResetting ∧
  emailConfirmCode a' = emailConfirmCode Sample.aliceResetting.
Proof.
  intros opts a'.
  apply (tracks_independent (Sample.env true) (Api.ResetPassword opts)
           Sample.resetPending "u1" Sample.aliceResetting a').
  - vm_compute. reflexivity.
  - vm_compute. reflexivity.
Defined.

Lemma deletion_is_final_witness :
  let w1 := (deleteAccount (Sample.env false) "u1" None Sample.world).2 in
  let w2 := Api.run (Sample.env false)
              [Api.SendEmailConfirmCode "u1";
               Api.SendResetPasswordCode "alice@example.org"] w1 in
  sendEmailConfirmCode (Sample.env false) "u1" w2 =
  (Returned (None, Some (generateError "Invalid userId.")), w2).
Proof.
  intros w1 w2.
  destruct (deletion_is_final (Sample.env false) "u1" None Sample.world w1
              [Api.SendEmailConfirmCode "u1";
               Api.SendResetPasswordCode "alice@example.org"])
    as (_ & Hsend & _).
  - vm_compute. reflexivity.
  - exact Hsend.
Defined.

Lemma route_message_witness :
  let req := Sample.request (JS.Str "  hello  ") Sample.textChannel None in
  ∃ m,
    (route (Sample.env false) req Sample.world).1 =
      Returned (mkResponse 200 (JsonMessage m)) ∧
    msgContent m = JS.Str "  hello  " ∧
    messages (db (route (Sample.env false) req Sample.world).2) = [m].
Proof.
  intros req.
  exists (mkMessage "c1" (Some "srv1") "u1" (JS.Str "  hello  ") None CONTENT
            JS.Undefined 1000).
  destruct (route_message (Sample.env false) req Sample.world
              (mkMessage "c1" (Some "srv1") "u1" (JS.Str "  hello  ") None
                 CONTENT JS.Undefined 1000))
    as (Hcontent & _ & _ & _ & _ & _ & _ & Hmessages & _).
  - vm_compute. reflexivity.
  - split; [vm_compute; reflexivity|]. split; [exact Hcontent|exact Hmessages].
Defined.

Lemma non_text_channel_rejected_witness :
  route (Sample.env false)
    (Sample.request (JS.Str "hello")
       (mkChannelCache "cat1" CATEGORY None (Some "srv1") 1)
       (Some (mkFileInfo "bytes" "cat.png"))) Sample.world =
  (Returned (errorResponse 400 "You cannot send messages in this channel."),
   Sample.world).
Proof.
  destruct (non_text_channel_rejected (Sample.env false)
              (Sample.request (JS.Str "hello")
                 (mkChannelCache "cat1" CATEGORY None (Some "srv1") 1)
                 (Some (mkFileInfo "bytes" "cat.png"))) Sample.world)
    as [_ Hmsg].
  - simpl. intros H. apply elem_of_cons in H as [H|H]; [discriminate H|].
    apply elem_of_cons in H as [H|H]; [discriminate H|].
    by apply elem_of_nil in H.
  - apply Hmsg; [reflexivity|]. simpl. intros i H. discriminate H.
Defined.

Lemma tickets_page_size_witness :
  GetTickets.take (GetTickets.findManyArgs
                     (GetTickets.mkQuery None (Some "100 per page"))) =
  GetTickets.Num 30.
Proof.
  destruct (tickets_page_size (GetTickets.mkQuery None (Some "100 per page")))
    as (_ & _ & Hlimit).
  apply (Hlimit "100 per page"); [reflexivity|]. intros H. discriminate H.
Defined.

End MoreInstances.
